(** * Wayback Tweets: the HTML report builder

    A shallow embedding of [waybacktweets/api/visualize.py], the class
    [HTMLTweetsVisualizer]: the record loader [_json_loader], the
    renderer [generate] and the persister [save], with the properties of
    pagination, card structure, element ids and error propagation. *)

From Stdlib Require Import ZArith NArith List Ascii String Lia Bool.
From Stdlib Require Import PrimFloat DecimalString DecimalZ.
From Stdlib.Strings Require Import Byte.
From stdpp Require Import base option list list_numbers gmap.

Local Open Scope Z_scope.
Set Warnings "-register-all".

(** * Python data *)

(** A Python [str] is a sequence of Unicode code points. *)
Abbreviation pystr := (list N) (only parsing).

(** String literals of the source.  A literal is written as in the
    Python file, with three conventions: [$] stands for the double
    quote, and the escapes [\n] and [\'] are read as Python reads
    them. *)
Fixpoint lit (s : string) : pystr :=
  match s with
  | EmptyString => []
  | String "$"%char s' => 34%N :: lit s'
  | String "\"%char (String "n"%char s') => 10%N :: lit s'
  | String "\"%char (String "'"%char s') => 39%N :: lit s'
  | String c s' => N_of_ascii c :: lit s'
  end.

(** [str(z)] for a Python [int]: the decimal numeral, with a leading
    minus sign below zero. *)
Definition ascii_codes (s : string) : pystr :=
  N_of_ascii <$> list_ascii_of_string s.

Definition str_int (z : Z) : pystr :=
  ascii_codes (NilZero.string_of_int (Z.to_int z)).

(** The values [json.loads] produces. A [dict] keeps its items in
    insertion order. *)
Inductive pyval : Type :=
| PNone
| PBool (b : bool)
| PInt (z : Z)
| PFloat (f : float)
| PStr (s : pystr)
| PList (l : list pyval)
| PDict (d : list (pystr * pyval)).

(** Exceptions that the class can raise or let through. *)
Inductive exn : Type :=
| KeyError (key : pyval)
| IndexError
| TypeError
| FileNotFoundError
| IsADirectoryError
| PermissionError
| UnicodeEncodeError
| UnicodeDecodeError
| JSONDecodeError
| OSError
| HelperError (tag : pystr).

Inductive result (A : Type) : Type :=
| Ok (a : A)
| Raise (e : exn).
Arguments Ok {A} a.
Arguments Raise {A} e.

#[global] Instance result_ret : MRet result := @Ok.
#[global] Instance result_bind : MBind result := fun A B f r =>
  match r with
  | Ok a => f a
  | Raise e => Raise e
  end.
#[global] Instance result_fmap : FMap result := fun A B f r =>
  match r with
  | Ok a => Ok (f a)
  | Raise e => Raise e
  end.

(** Truth value of a Python object, as [if x:] and [not x] test it. *)
Definition py_truthy (v : pyval) : bool :=
  match v with
  | PNone => false
  | PBool b => b
  | PInt z => negb (z =? 0)
  | PFloat f => negb (PrimFloat.eqb f PrimFloat.zero)
  | PStr s => negb (bool_decide (s = []))
  | PList l => match l with [] => false | _ => true end
  | PDict d => match d with [] => false | _ => true end
  end.

(** [d[key]] on the items of a dict. *)
Fixpoint dict_get (d : list (pystr * pyval)) (key : pystr) : option pyval :=
  match d with
  | [] => None
  | (k, v) :: d' => if bool_decide (k = key) then Some v else dict_get d' key
  end.

(** [obj[key]] with a [str] key. Only a dict can be subscripted by a
    string; a missing key raises [KeyError]. *)
Definition getitem_str (obj : pyval) (key : pystr) : result pyval :=
  match obj with
  | PDict d =>
      match dict_get d key with
      | Some v => Ok v
      | None => Raise (KeyError (PStr key))
      end
  | _ => Raise TypeError
  end.

(** [len(obj)]. *)
Definition py_len (obj : pyval) : result Z :=
  match obj with
  | PStr s => Ok (Z.of_nat (length s))
  | PList l => Ok (Z.of_nat (length l))
  | PDict d => Ok (Z.of_nat (length d))
  | _ => Raise TypeError
  end.

(** Indexing a sequence of length [length l] by a Python [int]: a
    negative index counts from the end, out of range raises
    [IndexError]. *)
Definition seq_index {A} (l : list A) (index : Z) : result A :=
  let i := if index <? 0 then index + Z.of_nat (length l) else index in
  if i <? 0 then Raise IndexError
  else match l !! Z.to_nat i with
       | Some x => Ok x
       | None => Raise IndexError
       end.

(** [obj[index]] with an [int] index. The keys of a dict decoded from
    JSON are strings, so an integer key is never found. *)
Definition getitem_int (obj : pyval) (index : Z) : result pyval :=
  match obj with
  | PList l => seq_index l index
  | PStr s => (fun c => PStr [c]) <$> seq_index s index
  | PDict _ => Raise (KeyError (PInt index))
  | _ => Raise TypeError
  end.

(** [range(start, stop)]. *)
Definition py_range (start stop : Z) : list Z := seqZ start (stop - start).

(** [s.replace(old, new)]: every non-overlapping occurrence of [old],
    scanning from the left. [skip] counts the characters of a replaced
    occurrence that are still to be passed over. *)
Fixpoint is_prefix (p s : pystr) : bool :=
  match p, s with
  | [], _ => true
  | a :: p', b :: s' => (a =? b)%N && is_prefix p' s'
  | _ :: _, [] => false
  end.

Fixpoint replace_from (old new : pystr) (skip : nat) (s : pystr) : pystr :=
  match s with
  | [] => []
  | c :: s' =>
      match skip with
      | S k => replace_from old new k s'
      | O =>
          if is_prefix old s
          then new ++ replace_from old new (Nat.pred (length old)) s'
          else c :: replace_from old new O s'
      end
  end.

(** With an empty [old], Python puts [new] before every character and
    at the end. *)
Definition py_replace (s old new : pystr) : pystr :=
  match old with
  | [] => concat ((fun c => new ++ [c]) <$> s) ++ new
  | _ => replace_from old new O s
  end.

(** * The rendered document *)

(** [generate] builds its result by appending to the local variable
    [html], one piece per [html += ...] statement. The embedding keeps
    [html] as the sequence of the pieces appended so far, each piece
    named after the statement that appends it, with the interpolated
    values as arguments; [render] gives the text of a piece and
    [render_html] the Python string the sequence stands for. *)
Inductive elem : Type :=
| Markup (text : pystr)
| Title (username : pystr)
| Heading (username : pystr)
| LoadingFirstPage
| PageOpen (page : Z)
| ContainerOpen
| TweetOpen
| AccordionOpen
| Checkbox (index : Z) (key_cleaned : pystr)
| AccordionLabel (index : Z) (key_cleaned key : pystr)
| AccordionContentOpen
| LoadingDiv (index : Z) (key_cleaned : pystr)
| Iframe (index : Z) (key_cleaned : pystr)
| AccordionContentClose
| AccordionClose
| IframeScript (index : Z) (url key_cleaned : pystr)
| Br
| AvailableText (text : pystr)
| AvailableIsRT (is_rt : pystr)
| AvailableInfo (info : pystr)
| LinkField (label href text : pystr)
| TextField (label value : pystr)
| TimestampField (parsed raw : pystr)
| DigestField (digest : pystr)
| TweetClose
| PageClose
| PaginationOpen
| PageLink (page : Z)
| PaginationClose
| Attribution
| PaginationScript (total_pages : Z).

(** The [id] attributes of the accordion elements of record [index]. *)
Definition tab_id (index : Z) (key_cleaned : pystr) : pystr :=
  lit "tab_" ++ str_int index ++ lit "_" ++ key_cleaned.
Definition loading_id (index : Z) (key_cleaned : pystr) : pystr :=
  lit "loading_" ++ str_int index ++ lit "_" ++ key_cleaned.
Definition iframe_id (index : Z) (key_cleaned : pystr) : pystr :=
  lit "iframe_" ++ str_int index ++ lit "_" ++ key_cleaned.
Definition page_id (page : Z) : pystr := lit "page_" ++ str_int page.
Definition page_link_id (page : Z) : pystr := lit "page_link_" ++ str_int page.
Definition loading_first_page_id : pystr := lit "loading_first_page".

Definition render (e : elem) : pystr :=
  match e with
  | Markup text => text
  | Title username =>
      lit "<title>@" ++ username ++ lit "'s archived tweets</title>\n"
  | Heading username =>
      lit "<h1>@" ++ username ++ lit "'s archived tweets</h1>\n"
  | LoadingFirstPage =>
      lit "<p id=$" ++ loading_first_page_id
      ++ lit "$>Building pagination with JavaScript...</p>\n"
  | PageOpen page =>
      lit "<div id=$" ++ page_id page ++ lit "$ style=$display:none;$>\n"
  | ContainerOpen => lit "<div class=$container$>\n"
  | TweetOpen => lit "<div class=$tweet$>\n"
  | AccordionOpen => lit "<div class=$accordion$>\n"
  | Checkbox index key_cleaned =>
      lit "<input type=$checkbox$ id=$" ++ tab_id index key_cleaned
      ++ lit "$ />\n"
  | AccordionLabel index key_cleaned key =>
      lit "<label class=$accordion-label$ for=$" ++ tab_id index key_cleaned
      ++ lit "$>Click to load the iframe from " ++ key ++ lit "</label>\n"
  | AccordionContentOpen => lit "<div class=$accordion-content$>\n"
  | LoadingDiv index key_cleaned =>
      lit "<div id=$" ++ loading_id index key_cleaned
      ++ lit "$ class=$loading$>Loading...</div>\n"
  | Iframe index key_cleaned =>
      lit "<iframe id=$" ++ iframe_id index key_cleaned
      ++ lit "$ frameborder=$0$ scrolling=$auto$ loading=$lazy$ style=$display: none;$ onload=$document.getElementById(\'"
      ++ loading_id index key_cleaned
      ++ lit "\').style.display=\'none\'; this.style.display=\'block\';$></iframe>\n"
  | AccordionContentClose => lit "</div>\n"
  | AccordionClose => lit "</div>\n"
  | IframeScript index url key_cleaned =>
      lit "\n                        <script>\n"
      ++ lit "                        // Loads the src attribute of the iframe tag\n"
      ++ lit "                        document.getElementById('"
      ++ tab_id index key_cleaned
      ++ lit "').addEventListener('change', function() {\n"
      ++ lit "                            if (this.checked) {\n"
      ++ lit "                                document.getElementById('"
      ++ loading_id index key_cleaned
      ++ lit "').style.display = 'block';\n"
      ++ lit "                                document.getElementById('"
      ++ iframe_id index key_cleaned
      ++ lit "').src = '" ++ url ++ lit "';\n"
      ++ lit "                            }\n"
      ++ lit "                        });\n"
      ++ lit "                        </script>\n"
      ++ lit "                        "
  | Br => lit "<br>\n"
  | AvailableText text =>
      lit "<p><strong class=$content$>Available Tweet Content:</strong> "
      ++ text ++ lit "</p>\n"
  | AvailableIsRT is_rt =>
      lit "<p><strong class=$content$>Available Tweet Is Retweet:</strong> "
      ++ is_rt ++ lit "</p>\n"
  | AvailableInfo info =>
      lit "<p><strong class=$content$>Available Tweet Username:</strong> "
      ++ info ++ lit "</p>\n"
  | LinkField label href text =>
      lit "<p><strong>" ++ label ++ lit ":</strong> <a href=$" ++ href
      ++ lit "$ target=$_blank$>" ++ text ++ lit "</a></p>\n"
  | TextField label value =>
      lit "<p><strong>" ++ label ++ lit ":</strong> " ++ value ++ lit "</p>\n"
  | TimestampField parsed raw =>
      lit "<p><strong>Archived Timestamp:</strong> " ++ parsed ++ lit " ("
      ++ raw ++ lit ")</p>\n"
  | DigestField digest =>
      lit "<p><strong>Archived Digest:</strong> " ++ digest ++ lit "\n"
  | TweetClose => lit "</div>\n"
  | PageClose => lit "</div>\n</div>\n"
  | PaginationOpen => lit "<div class=$pagination$>\n"
  | PageLink page =>
      lit "<a href=$#$ id=$" ++ page_link_id page ++ lit "$ onclick=$showPage("
      ++ str_int page ++ lit ")$>" ++ str_int page ++ lit "</a>\n"
  | PaginationClose => lit "</div>\n"
  | Attribution =>
      lit "<br><p class=$source$>generated by <a href=$https://claromes.github.io/waybacktweets/$ target=$_blank$>Wayback Tweets"
      ++ [8599%N] ++ lit "</a></p>\n"
  | PaginationScript total_pages =>
      lit "\n        <script>\n"
      ++ lit "        // Function to show the selected page and hide the others\n"
      ++ lit "        function showPage(page) {\n"
      ++ lit "            for (let i = 1; i <= " ++ str_int total_pages
      ++ lit "; i++) {\n"
      ++ lit "                document.getElementById('page_' + i).style.display = 'none';\n"
      ++ lit "                document.getElementById('page_link_' + i).classList.remove('selected');\n"
      ++ lit "            }\n"
      ++ lit "\n"
      ++ lit "            document.getElementById('page_' + page).style.display = 'block';\n"
      ++ lit "            document.getElementById('page_link_' + page).classList.add('selected');\n"
      ++ lit "        }\n"
      ++ lit "\n"
      ++ lit "        // Initializes the page to show only the first page\n"
      ++ lit "        document.addEventListener('DOMContentLoaded', (event) => {\n"
      ++ lit "            showPage(1); // Shows only the first page on load\n"
      ++ lit "            document.getElementById('loading_first_page').style.display = 'none';\n"
      ++ lit "        });\n"
      ++ lit "        </script>\n"
      ++ lit "        "
  end.

Definition render_html (html : list elem) : pystr := concat (render <$> html).

(** The [id] attribute an element carries, if any. *)
Definition elem_id (e : elem) : option pystr :=
  match e with
  | LoadingFirstPage => Some loading_first_page_id
  | PageOpen page => Some (page_id page)
  | Checkbox index key_cleaned => Some (tab_id index key_cleaned)
  | LoadingDiv index key_cleaned => Some (loading_id index key_cleaned)
  | Iframe index key_cleaned => Some (iframe_id index key_cleaned)
  | PageLink page => Some (page_link_id page)
  | _ => None
  end.

(** The fixed text of the document head: lines 60 to 67, the style
    sheet of lines 72 to 94, and line 96. *)
Definition doctype : elem := Markup (lit "<!DOCTYPE html>\n").

Definition head_before_title : list elem :=
  Markup <$>
  [ lit "<html lang=$en$>\n";
    lit "<!-- This document was generated by Wayback Tweets. Visit: https://claromes.github.io/waybacktweets -->\n";
    lit "<head>";
    lit "<meta charset=$UTF-8$>\n";
    lit "<meta name=$viewport$ content=$width=device-width, initial-scale=1.0$>\n" ].

Definition style_sheet : list elem :=
  Markup <$>
  [ lit "<style>\n";
    lit "body { font-family: monospace; background-color: whitesmoke; color: #1c1e21; margin: 0; padding: 20px; }\n";
    lit ".container { display: flex; flex-wrap: wrap; gap: 20px; }\n";
    lit ".tweet { flex: 0 1 calc(33.33% - 20px); background-color: #ffffff; border: 1px solid #e2e2e2; border-radius: 10px; padding: 15px; overflow-wrap: break-word; margin: auto; width: 600px; }\n";
    lit ".tweet strong { font-weight: bold; }\n";
    lit ".tweet a { color: #000000; text-decoration: none; }\n";
    lit ".content { color: #000000; }\n";
    lit ".source { font-size: 12px; text-align: center; }\n";
    lit ".tweet a:hover { text-decoration: underline; }\n";
    lit "h1, h3 { text-align: center; }\n";
    lit "iframe { width: 600px; height: 600px; }\n";
    lit "input { position: absolute; opacity: 0; z-index: -1; }\n";
    lit ".accordion { margin: 10px; border-radius: 5px; overflow: hidden; box-shadow: 0 4px 4px -2px rgba(0, 0, 0, 0.4); }\n";
    lit ".accordion-label { display: flex; justify-content: space-between; padding: 1em; font-weight: bold; cursor: pointer; background: #000000; color: #ffffff; }\n";
    lit ".accordion-content { max-height: 0; padding: 0 1em; background: white; transition: all 0.35s; }\n";
    lit "input:checked ~ .accordion-content { max-height: 100vh; padding: 1em; }\n";
    lit ".pagination { text-align: center; margin-top: 20px; }\n";
    lit ".pagination a { margin: 0 5px; text-decoration: none; color: #000000; padding: 1px 2px; border-radius: 5px; }\n";
    lit ".pagination a:hover { background-color: #e2e2e2; }\n";
    lit ".pagination a.selected { background-color: #e2e2e2; color: #000000; font-weight: bold; }\n";
    lit "</style>\n" ].

Definition body_open : elem := Markup (lit "</head>\n<body>\n").

(** * The state of a [generate] call *)

(** A statement of [generate] either raises, which ends the call, or
    finishes with a new value of the local variable [html]. *)
Definition M (A : Type) : Type := list elem -> result (A * list elem).

#[global] Instance M_ret : MRet M := fun A a html => Ok (a, html).
#[global] Instance M_bind : MBind M := fun A B f m html =>
  match m html with
  | Ok (a, html') => f a html'
  | Raise e => Raise e
  end.

(** [html = e] and [html += e]. *)
Definition assign (e : elem) : M unit := fun _ => Ok (tt, [e]).
Definition emit (e : elem) : M unit := fun html => Ok (tt, html ++ [e]).
Definition emit_all (es : list elem) : M unit := fun html => Ok (tt, html ++ es).

(** An expression evaluated for its value; [html] is not touched. *)
Definition eval {A} (r : result A) : M A := fun html =>
  match r with
  | Ok a => Ok (a, html)
  | Raise e => Raise e
  end.

(** [for x in l: body]. *)
Fixpoint for_in {A} (l : list A) (body : A -> M unit) : M unit :=
  match l with
  | [] => mret tt
  | x :: l' => body x;; for_in l' body
  end.

(** What a statement appends when run from the empty [html]. *)
Definition out (m : M unit) : result (list elem) := snd <$> m [].

(** A statement only appends: run from [html], it does what it does
    from the empty string, after [html]. *)
Definition append_only {A} (m : M A) : Prop :=
  forall html, m html = (fun r => (r.1, html ++ r.2)) <$> m [].

(** * The class *)

Record HTMLTweetsVisualizer : Type := {
  username : pystr;
  json_path : pyval;
  html_file_path : option pystr;
}.

Definition tweets_per_page : Z := 24.

(** Line 58. *)
Definition total_pages (n : Z) : Z :=
  (n + tweets_per_page - 1) `div` tweets_per_page.

(** Lines 110 and 111. *)
Definition start_index (page : Z) : Z := (page - 1) * tweets_per_page.
Definition end_index (page n : Z) : Z :=
  Z.min (start_index page + tweets_per_page) n.

(** The keys of [iframe_src], in the order of the dict display. *)
Definition iframe_keys : list pystr :=
  [ lit "Archived Tweet"; lit "Parsed Archived Tweet";
    lit "Original Tweet"; lit "Parsed Tweet" ].

(** The fields [generate] reads from every record, and the fields it
    reads from the record [d]: the two of the plain-text block only when
    [available_tweet_text] is truthy. *)
Definition common_fields : list string :=
  [ "archived_tweet_url"; "parsed_archived_tweet_url"; "original_tweet_url";
    "parsed_tweet_url"; "archived_urlkey"; "archived_timestamp";
    "archived_mimetype"; "archived_statuscode"; "archived_digest";
    "archived_length" ]%string.

Definition plain_text_fields : list string :=
  [ "available_tweet_is_RT"; "available_tweet_info" ]%string.

Definition expected_fields (d : list (pystr * pyval)) : list string :=
  "available_tweet_text"%string
  :: match dict_get d (lit "available_tweet_text") with
     | Some text => if py_truthy text then plain_text_fields else []
     | None => []
     end
  ++ common_fields.

Definition has_field (d : list (pystr * pyval)) (key : string) : Prop :=
  is_Some (dict_get d (lit key)).

Definition has_expected_fields (d : list (pystr * pyval)) : Prop :=
  Forall (has_field d) (expected_fields d).

Section Generate.

(** [repr] of the values whose text the model does not spell out
    (floats and containers), and the helper [timestamp_parser] of
    [waybacktweets.utils], which is not part of this file. *)
Variable py_repr : pyval -> pystr.
Variable timestamp_parser : pyval -> result pyval.

(** [f"{v}"] and [str.format]: the text of a value. *)
Definition py_format (v : pyval) : pystr :=
  match v with
  | PNone => lit "None"
  | PBool true => lit "True"
  | PBool false => lit "False"
  | PInt z => str_int z
  | PStr s => s
  | PFloat _ | PList _ | PDict _ => py_repr v
  end.

(** [tweet["key"]]. *)
Definition field (tweet : pyval) (key : string) : M pyval :=
  eval (getitem_str tweet (lit key)).

(** Lines 126 to 150: the body of the loop over [iframe_src.items()]. *)
Definition render_accordion (index : Z) (item : pystr * pyval) : M unit :=
  let '(key, value) := item in
  let key_cleaned := py_replace key (lit " ") (lit "_") in
  emit AccordionOpen;;
  emit (Checkbox index key_cleaned);;
  emit (AccordionLabel index key_cleaned key);;
  emit AccordionContentOpen;;
  emit (LoadingDiv index key_cleaned);;
  emit (Iframe index key_cleaned);;
  emit AccordionContentClose;;
  emit AccordionClose;;
  emit (IframeScript index (py_format value) key_cleaned).

(** Lines 159 to 162: a field shown as a link; the f-string looks the
    field up twice. *)
Definition render_link (tweet : pyval) (label key : string) : M unit :=
  href ← field tweet key;
  text ← field tweet key;
  emit (LinkField (lit label) (py_format href) (py_format text)).

Definition render_text (tweet : pyval) (label key : string) : M unit :=
  value ← field tweet key;
  emit (TextField (lit label) (py_format value)).

(** Lines 115 to 171: the body of the loop over the records of a page. *)
Definition render_tweet (index : Z) (tweet : pyval) : M unit :=
  emit TweetOpen;;
  text ← field tweet "available_tweet_text";
  (if negb (py_truthy text) then
     archived ← field tweet "archived_tweet_url";
     parsed_archived ← field tweet "parsed_archived_tweet_url";
     original ← field tweet "original_tweet_url";
     parsed ← field tweet "parsed_tweet_url";
     let iframe_src :=
       [ (lit "Archived Tweet", archived);
         (lit "Parsed Archived Tweet", parsed_archived);
         (lit "Original Tweet", original);
         (lit "Parsed Tweet", parsed) ] in
     for_in iframe_src (render_accordion index)
   else mret tt);;
  text ← field tweet "available_tweet_text";
  (if py_truthy text then
     emit Br;;
     text ← field tweet "available_tweet_text";
     emit (AvailableText (py_format text));;
     is_rt ← field tweet "available_tweet_is_RT";
     emit (AvailableIsRT (py_format is_rt));;
     info ← field tweet "available_tweet_info";
     emit (AvailableInfo (py_format info))
   else mret tt);;
  emit Br;;
  render_link tweet "Archived Tweet" "archived_tweet_url";;
  render_link tweet "Parsed Archived Tweet" "parsed_archived_tweet_url";;
  render_link tweet "Original Tweet" "original_tweet_url";;
  render_link tweet "Parsed Tweet" "parsed_tweet_url";;
  render_text tweet "Archived URL Key" "archived_urlkey";;
  timestamp ← field tweet "archived_timestamp";
  parsed ← eval (timestamp_parser timestamp);
  raw ← field tweet "archived_timestamp";
  emit (TimestampField (py_format parsed) (py_format raw));;
  render_text tweet "Archived mimetype" "archived_mimetype";;
  render_text tweet "Archived Statuscode" "archived_statuscode";;
  digest ← field tweet "archived_digest";
  emit (DigestField (py_format digest));;
  render_text tweet "Archived Length" "archived_length";;
  emit TweetClose.

(** ** What a card consists of

    The pieces [render_tweet] appends for a record that has all the
    fields it reads, written as one list. *)

(** [tweet["key"]] for a key that is present. *)
Definition tweet_get (d : list (pystr * pyval)) (key : string) : pyval :=
  default PNone (dict_get d (lit key)).

Definition accordion_elems (index : Z) (key : pystr) (value : pyval)
  : list elem :=
  let key_cleaned := py_replace key (lit " ") (lit "_") in
  [ AccordionOpen;
    Checkbox index key_cleaned;
    AccordionLabel index key_cleaned key;
    AccordionContentOpen;
    LoadingDiv index key_cleaned;
    Iframe index key_cleaned;
    AccordionContentClose;
    AccordionClose;
    IframeScript index (py_format value) key_cleaned ].

Definition accordions_block (index : Z) (d : list (pystr * pyval))
  : list elem :=
  accordion_elems index (lit "Archived Tweet")
    (tweet_get d "archived_tweet_url")
  ++ accordion_elems index (lit "Parsed Archived Tweet")
    (tweet_get d "parsed_archived_tweet_url")
  ++ accordion_elems index (lit "Original Tweet")
    (tweet_get d "original_tweet_url")
  ++ accordion_elems index (lit "Parsed Tweet")
    (tweet_get d "parsed_tweet_url").

Definition plain_text_block (d : list (pystr * pyval)) : list elem :=
  [ Br;
    AvailableText (py_format (tweet_get d "available_tweet_text"));
    AvailableIsRT (py_format (tweet_get d "available_tweet_is_RT"));
    AvailableInfo (py_format (tweet_get d "available_tweet_info")) ].

Definition link_field (d : list (pystr * pyval)) (label key : string)
  : elem :=
  LinkField (lit label) (py_format (tweet_get d key))
    (py_format (tweet_get d key)).

Definition text_field (d : list (pystr * pyval)) (label key : string)
  : elem :=
  TextField (lit label) (py_format (tweet_get d key)).

Definition common_block (d : list (pystr * pyval)) (parsed : pyval)
  : list elem :=
  [ Br;
    link_field d "Archived Tweet" "archived_tweet_url";
    link_field d "Parsed Archived Tweet" "parsed_archived_tweet_url";
    link_field d "Original Tweet" "original_tweet_url";
    link_field d "Parsed Tweet" "parsed_tweet_url";
    text_field d "Archived URL Key" "archived_urlkey";
    TimestampField (py_format parsed)
      (py_format (tweet_get d "archived_timestamp"));
    text_field d "Archived mimetype" "archived_mimetype";
    text_field d "Archived Statuscode" "archived_statuscode";
    DigestField (py_format (tweet_get d "archived_digest"));
    text_field d "Archived Length" "archived_length";
    TweetClose ].

Definition card_elems (index : Z) (d : list (pystr * pyval))
    (parsed : pyval) : list elem :=
  [TweetOpen]
  ++ (if py_truthy (tweet_get d "available_tweet_text")
      then plain_text_block d
      else accordions_block index d)
  ++ common_block d parsed.

(** Lines 105 to 173: the body of the loop over the pages. *)
Definition render_page (self : HTMLTweetsVisualizer) (page : Z) : M unit :=
  emit (PageOpen page);;
  emit ContainerOpen;;
  let start_index := start_index page in
  n ← eval (py_len (json_path self));
  let end_index := Z.min (start_index + tweets_per_page) n in
  for_in (py_range start_index end_index) (fun index =>
    tweet ← eval (getitem_int (json_path self) index);
    render_tweet index tweet);;
  emit PageClose.

(** Lines 57 to 209. *)
Definition generate_html (self : HTMLTweetsVisualizer) : M unit :=
  n ← eval (py_len (json_path self));
  let total_pages := total_pages n in
  assign doctype;;
  emit_all head_before_title;;
  emit (Title (username self));;
  emit_all style_sheet;;
  emit body_open;;
  emit (Heading (username self));;
  emit LoadingFirstPage;;
  for_in (py_range 1 (total_pages + 1)) (render_page self);;
  emit Br;;
  emit PaginationOpen;;
  for_in (py_range 1 (total_pages + 1)) (fun page => emit (PageLink page));;
  emit PaginationClose;;
  emit Attribution;;
  emit (PaginationScript total_pages);;
  emit (Markup (lit "</body>\n"));;
  emit (Markup (lit "</html>")).

(** ** What the document consists of *)

(** The cards of a page between the two pieces that open it and the
    one that closes it. *)
Definition page_elems (page : Z) (cards : list (list elem)) : list elem :=
  [PageOpen page; ContainerOpen] ++ concat cards ++ [PageClose].

(** Everything before the first page and everything after the last. *)
Definition prologue (username : pystr) : list elem :=
  doctype :: head_before_title ++ [Title username] ++ style_sheet
  ++ [body_open; Heading username; LoadingFirstPage].

Definition epilogue (total_pages : Z) : list elem :=
  [Br; PaginationOpen]
  ++ (PageLink <$> py_range 1 (total_pages + 1))
  ++ [ PaginationClose; Attribution; PaginationScript total_pages;
       Markup (lit "</body>\n"); Markup (lit "</html>") ].

Definition document_elems (username : pystr) (total_pages : Z)
    (pages : list (list elem)) : list elem :=
  prologue username ++ concat pages ++ epilogue total_pages.

(** The card of the record at [index]: line 114 and the loop body. *)
Definition card_at (self : HTMLTweetsVisualizer) (index : Z)
  : result (list elem) :=
  tweet ← getitem_int (json_path self) index;
  out (render_tweet index tweet).

(** The records the inner loop of a page visits, in the order it
    visits them: lines 110 to 114. *)
Definition page_tweets (self : HTMLTweetsVisualizer) (page : Z)
  : result (list pyval) :=
  n ← py_len (json_path self);
  mapM (getitem_int (json_path self))
       (py_range (start_index page) (end_index page n)).

(** ** Pagination as the specification words it

    [t] is the ceiling of [n / p]; the zero-based positions from [lo]
    up to but not including [hi]; the records at these positions; and
    a page container that shows, in order, the cards of the records at
    the positions of page [page]. *)
Definition is_ceil_div (n p t : Z) : Prop := p * (t - 1) < n <= p * t.

Definition positions (lo hi : Z) : list Z := seqZ lo (hi - lo).

Definition records_between (records : list pyval) (lo hi : Z) : list pyval :=
  take (Z.to_nat (hi - lo)) (drop (Z.to_nat lo) records).

Definition page_lo (page : Z) : Z := (page - 1) * 24.
Definition page_hi (page n : Z) : Z := Z.min (page * 24) n.

Definition page_shows (records : list pyval) (page : Z) (block : list elem)
  : Prop :=
  exists cards,
    block = page_elems page cards
    /\ Forall2 (fun index card =>
          exists tweet,
            records !! Z.to_nat index = Some tweet
            /\ out (render_tweet index tweet) = Ok card)
        (positions (page_lo page) (page_hi page (Z.of_nat (length records))))
        cards.

(** The pieces of the document [generate] returns, and [generate]
    itself: [return html]. *)
Definition generate_elems (self : HTMLTweetsVisualizer) : result (list elem) :=
  snd <$> generate_html self [].

Definition generate (self : HTMLTweetsVisualizer) : result pystr :=
  render_html <$> generate_elems self.

End Generate.

(** * Text files *)

(** ** UTF-8, as the codec of [open(..., encoding="utf-8")] *)

Definition byte_of (n : N) : byte := default Byte.x00 (Byte.of_N n).

(** A continuation byte carrying six bits. *)
Definition continuation (bits : N) : byte := byte_of (128 + bits mod 64).

(** The strict encoder: a surrogate code point has no encoding. *)
Definition utf8_encode_char (c : N) : result (list byte) :=
  (if c <? 128 then Ok [byte_of c]
   else if c <? 2048 then Ok [byte_of (192 + c / 64); continuation c]
   else if c <? 65536 then
     if (55296 <=? c) && (c <=? 57343) then Raise UnicodeEncodeError
     else Ok [byte_of (224 + c / 4096); continuation (c / 64); continuation c]
   else if c <? 1114112 then
     Ok [byte_of (240 + c / 262144); continuation (c / 4096);
         continuation (c / 64); continuation c]
   else Raise UnicodeEncodeError)%N.

Definition utf8_encode (s : pystr) : result (list byte) :=
  @concat byte <$> mapM utf8_encode_char s.

(** The strict decoder: it refuses stray and missing continuation
    bytes, encodings longer than needed, surrogates and code points
    above U+10FFFF. *)
Definition continuation_bits (b : byte) : option N :=
  let n := Byte.to_N b in
  (if (128 <=? n) && (n <? 192) then Some (n - 128) else None)%N.

Fixpoint utf8_decode (bs : list byte) : result pystr :=
  match bs with
  | [] => Ok []
  | b0 :: bs1 =>
      let n0 := Byte.to_N b0 in
      (if n0 <? 128 then cons n0 <$> utf8_decode bs1
       else if n0 <? 194 then Raise UnicodeDecodeError
       else if n0 <? 224 then
         match bs1 with
         | b1 :: bs2 =>
             match continuation_bits b1 with
             | Some x1 => cons ((n0 - 192) * 64 + x1) <$> utf8_decode bs2
             | None => Raise UnicodeDecodeError
             end
         | _ => Raise UnicodeDecodeError
         end
       else if n0 <? 240 then
         match bs1 with
         | b1 :: b2 :: bs3 =>
             match continuation_bits b1, continuation_bits b2 with
             | Some x1, Some x2 =>
                 let c := (n0 - 224) * 4096 + x1 * 64 + x2 in
                 if (c <? 2048) || (55296 <=? c) && (c <=? 57343)
                 then Raise UnicodeDecodeError
                 else cons c <$> utf8_decode bs3
             | _, _ => Raise UnicodeDecodeError
             end
         | _ => Raise UnicodeDecodeError
         end
       else if n0 <? 245 then
         match bs1 with
         | b1 :: b2 :: b3 :: bs4 =>
             match continuation_bits b1, continuation_bits b2,
                   continuation_bits b3 with
             | Some x1, Some x2, Some x3 =>
                 let c := (n0 - 240) * 262144 + x1 * 4096 + x2 * 64 + x3 in
                 if (c <? 65536) || (1114111 <? c)
                 then Raise UnicodeDecodeError
                 else cons c <$> utf8_decode bs4
             | _, _, _ => Raise UnicodeDecodeError
             end
         | _ => Raise UnicodeDecodeError
         end
       else Raise UnicodeDecodeError)%N
  end.

(** ** Newlines in text mode

    With the default [newline=None], writing turns every line feed
    into [os.linesep], and reading turns carriage return plus line
    feed, and a lone carriage return, into a line feed. *)
Definition translate_on_write (linesep s : pystr) : pystr :=
  py_replace s (lit "\n") linesep.

Fixpoint universal_newlines (s : pystr) : pystr :=
  match s with
  | [] => []
  | 13%N :: s' =>
      match s' with
      | 10%N :: s'' => 10%N :: universal_newlines s''
      | _ => 10%N :: universal_newlines s'
      end
  | c :: s' => c :: universal_newlines s'
  end.

(** ** The file system

    A directory, a regular file with what its owner may do and the
    bytes it holds, or a sink: a device such as [/dev/null] that is
    no regular file, takes what is written to it and holds nothing. *)
Inductive node : Type :=
| Directory
| RegularFile (readable writable : bool) (content : list byte)
| Sink (writable : bool).

(** [locate] gives the name under which [nodes] keeps the file a path
    leads to: two paths that lead to one file (another spelling of
    the path, a symbolic link, a hard link) have the same name there.
    [may_create] tells whether a file can be created at a path where
    there is none, and with which error it cannot; [created_mode]
    whether the process may then read and write the file it created,
    which the umask decides. [read_error] tells what reading a file
    does: [None] when its bytes are delivered, or the exception that
    [read] raises. [write_error] tells what writing bytes to an open
    file does: [None] when all of them reach the file, or the
    exception that [write] or [close] raises and the number of bytes
    that reached the file before. *)
Record filesystem : Type := {
  locate : pystr -> pystr;
  nodes : gmap (list N) node;
  may_create : pystr -> result unit;
  created_mode : bool * bool;
  read_error : pystr -> option exn;
  write_error : pystr -> list byte -> option (exn * nat);
}.

Definition node_at (fs : filesystem) (path : pystr) : option node :=
  nodes fs !! locate fs path.

Definition set_node (fs : filesystem) (path : pystr) (n : node) : filesystem :=
  {| locate := locate fs;
     nodes := <[locate fs path := n]> (nodes fs);
     may_create := may_create fs;
     created_mode := created_mode fs;
     read_error := read_error fs;
     write_error := write_error fs |}.

Definition file_content (fs : filesystem) (path : pystr) : option (list byte) :=
  match node_at fs path with
  | Some (RegularFile _ _ content) => Some content
  | Some (Sink _) => Some []
  | _ => None
  end.

(** [os.path.isfile]. *)
Definition isfile (fs : filesystem) (path : pystr) : bool :=
  match node_at fs path with
  | Some (RegularFile _ _ _) => true
  | _ => false
  end.

(** [open(path, "r")] followed by reading all of the file. *)
Definition read_bytes (fs : filesystem) (path : pystr) : result (list byte) :=
  match node_at fs path with
  | None => Raise FileNotFoundError
  | Some Directory => Raise IsADirectoryError
  | Some (RegularFile readable _ content) =>
      if readable then
        match read_error fs (locate fs path) with
        | None => Ok content
        | Some e => Raise e
        end
      else Raise PermissionError
  | Some (Sink _) => Ok []
  end.

Definition read_text (fs : filesystem) (path : pystr) : result pystr :=
  bytes ← read_bytes fs path;
  universal_newlines <$> utf8_decode bytes.

(** [open(path, "w")]: the file is created, or emptied if it is
    there; the file system after the call is returned. *)
Definition open_for_writing (fs : filesystem) (path : pystr)
  : result filesystem :=
  match node_at fs path with
  | None =>
      _ ← may_create fs path;
      Ok (set_node fs path
            (RegularFile (created_mode fs).1 (created_mode fs).2 []))
  | Some Directory => Raise IsADirectoryError
  | Some (RegularFile readable writable _) =>
      if writable then Ok (set_node fs path (RegularFile readable writable []))
      else Raise PermissionError
  | Some (Sink writable) =>
      if writable then Ok fs else Raise PermissionError
  end.

Definition writable (fs : filesystem) (path : pystr) : Prop :=
  exists fs', open_for_writing fs path = Ok fs'.

(** The content of an open file is replaced; a sink keeps nothing. *)
Definition set_content (fs : filesystem) (path : pystr) (bytes : list byte)
  : filesystem :=
  match node_at fs path with
  | Some (RegularFile readable writable _) =>
      set_node fs path (RegularFile readable writable bytes)
  | _ => fs
  end.

(** [f.write] and the [close] at the end of the [with] block. *)
Definition write_bytes (fs : filesystem) (path : pystr) (bytes : list byte)
  : result unit * filesystem :=
  match write_error fs (locate fs path) bytes with
  | None => (Ok tt, set_content fs path bytes)
  | Some (e, kept) => (Raise e, set_content fs path (take kept bytes))
  end.

Section Persist.

(** [os.linesep] of the platform. *)
Variable linesep : pystr.

(** Lines 220 and 221. A call ends with a result and a file system:
    what [open] did to the file stays when [write] raises. The string
    is encoded as a whole before any of its bytes is written. *)
Definition save (self : HTMLTweetsVisualizer) (html_content : pystr)
    (fs : filesystem) : result unit * filesystem :=
  match html_file_path self with
  | None => (Raise TypeError, fs)
  | Some path =>
      match open_for_writing fs path with
      | Raise e => (Raise e, fs)
      | Ok fs' =>
          match utf8_encode (translate_on_write linesep html_content) with
          | Raise e => (Raise e, fs')
          | Ok bytes => write_bytes fs' path bytes
          end
      end
  end.

End Persist.

(** The argument of the loader: its annotation admits a string and a
    list. (Integers, which [os.path.isfile] and [open] take for file
    descriptors, are outside the annotation and outside this model.) *)
Inductive json_input : Type :=
| JsonStr (s : pystr)
| JsonList (l : list pyval).

Section Load.

(** [json.loads], which is not part of this file. *)
Variable json_loads : pystr -> result pyval.

(** Lines 44 to 48. [os.path.isfile] raises [TypeError] for a list;
    [json.load(f)] reads all of [f] and decodes it. *)
Definition _json_loader (fs : filesystem) (json_path : json_input)
  : result pyval :=
  match json_path with
  | JsonStr path =>
      if isfile fs path then
        text ← read_text fs path;
        json_loads text
      else json_loads path
  | JsonList _ => Raise TypeError
  end.

(** Lines 29 to 31. *)
Definition __init__ (fs : filesystem) (username : pystr)
    (json_path : json_input) (html_file_path : option pystr)
  : result HTMLTweetsVisualizer :=
  records ← _json_loader fs json_path;
  Ok {| username := username; json_path := records;
        html_file_path := html_file_path |}.

End Load.

(** A string that UTF-8 can encode: code points up to U+10FFFF, none
    of them a surrogate. *)
Definition is_scalar_value (c : N) : Prop :=
  (c < 1114112 /\ ~ (55296 <= c <= 57343))%N.

Definition encodable (s : pystr) : Prop := Forall is_scalar_value s.


Definition accepts (fs : filesystem) (path : pystr) (bytes : list byte)
  : Prop :=
  write_error fs (locate fs path) bytes = None.

Definition delivers (fs : filesystem) (path : pystr) : Prop :=
  read_error fs (locate fs path) = None.

(** [fs'] differs from [fs] at most in the regular file kept under
    [name]: the file may be new, with the mode of a created file, or
    have another content; its permissions, and a directory or a sink
    there, stay as they are. *)
Definition changes_only (name : pystr) (fs fs' : filesystem) : Prop :=
  locate fs' = locate fs
  /\ may_create fs' = may_create fs
  /\ created_mode fs' = created_mode fs
  /\ read_error fs' = read_error fs
  /\ write_error fs' = write_error fs
  /\ (forall other, other <> name -> nodes fs' !! other = nodes fs !! other)
  /\ match nodes fs !! name with
     | None =>
         nodes fs' !! name = None
         \/ exists content,
              nodes fs' !! name
              = Some (RegularFile (created_mode fs).1 (created_mode fs).2
                        content)
     | Some (RegularFile readable writable _) =>
         exists content,
           nodes fs' !! name = Some (RegularFile readable writable content)
     | Some n => nodes fs' !! name = Some n
     end.


(** * Reading a document *)

(** The page numbers of the page containers of a document, and the
    page numbers of its pagination links, in document order. *)
Definition page_containers (doc : list elem) : list Z :=
  omap (fun e => match e with PageOpen page => Some page | _ => None end) doc.

Definition pagination_links (doc : list elem) : list Z :=
  omap (fun e => match e with PageLink page => Some page | _ => None end) doc.

(** The collapsible sections of a card: the number of accordion
    containers, and the concerns named on their labels. *)
Definition is_accordion_open (e : elem) : bool :=
  match e with
  | AccordionOpen => true
  | _ => false
  end.

Definition accordion_count (card : list elem) : nat :=
  length (filter (fun e => is_accordion_open e = true) card).

Definition accordion_labels (card : list elem) : list pystr :=
  omap (fun e => match e with
                 | AccordionLabel _ _ key => Some key
                 | _ => None
                 end) card.

(** The plain-text content fields of a card: text, retweet flag and
    attributed username. *)
Definition is_plain_text_field (e : elem) : bool :=
  match e with
  | AvailableText _ | AvailableIsRT _ | AvailableInfo _ => true
  | _ => false
  end.

Definition plain_text_content (card : list elem) : list elem :=
  filter (fun e => is_plain_text_field e = true) card.

(** The text of a page container around the text of its cards, and
    the text of a pagination link. *)
Definition page_text (page : Z) (body : pystr) : pystr :=
  render (PageOpen page) ++ render ContainerOpen ++ body ++ render PageClose.

Definition page_link_text (page : Z) : pystr := render (PageLink page).

(** The text of the heading, line 98. *)
Definition heading_text (username : pystr) : pystr :=
  lit "<h1>@" ++ username ++ lit "'s archived tweets</h1>\n".

(** The [id] attributes of a document, in document order. *)
Definition element_ids (doc : list elem) : list pystr := omap elem_id doc.

(** ** Where an [id] comes from

    An [id] is the fixed one of the loading notice, the one of a page
    container or of a pagination link, or one of the three of an
    accordion section of a record. *)
Inductive accordion_part : Type := TabPart | LoadingPart | IframePart.

Inductive id_source : Type :=
| FromLoadingNotice
| FromPage (page : Z)
| FromPageLink (page : Z)
| FromAccordion (part : accordion_part) (index : Z) (key_cleaned : pystr).

Definition part_prefix (part : accordion_part) : pystr :=
  match part with
  | TabPart => lit "tab_"
  | LoadingPart => lit "loading_"
  | IframePart => lit "iframe_"
  end.

Definition id_text (src : id_source) : pystr :=
  match src with
  | FromLoadingNotice => loading_first_page_id
  | FromPage page => page_id page
  | FromPageLink page => page_link_id page
  | FromAccordion part index key_cleaned =>
      part_prefix part ++ str_int index ++ lit "_" ++ key_cleaned
  end.

Definition elem_id_source (e : elem) : option id_source :=
  match e with
  | LoadingFirstPage => Some FromLoadingNotice
  | PageOpen page => Some (FromPage page)
  | Checkbox index key_cleaned => Some (FromAccordion TabPart index key_cleaned)
  | LoadingDiv index key_cleaned =>
      Some (FromAccordion LoadingPart index key_cleaned)
  | Iframe index key_cleaned =>
      Some (FromAccordion IframePart index key_cleaned)
  | PageLink page => Some (FromPageLink page)
  | _ => None
  end.




(** The characters of a decimal numeral. *)
Definition is_numeral_char (c : N) : bool :=
  ((48 <=? c) && (c <=? 57) || (c =? 45))%N.

(** * Sample data for the examples *)

(** Stand-ins for the two functions [generate] takes from outside: a
    [repr] that prints a placeholder, and a timestamp helper that
    accepts strings and returns them unchanged. *)
Definition sample_repr (v : pyval) : pystr := lit "<value>".

Definition sample_timestamp_parser (v : pyval) : result pyval :=
  match v with
  | PStr _ => Ok v
  | _ => Raise TypeError
  end.

(** A second helper, which answers as the first on strings and
    otherwise raises an exception of its own. *)
Definition strict_timestamp_parser (v : pyval) : result pyval :=
  match v with
  | PStr _ => Ok v
  | _ => Raise (HelperError (lit "not a string"))
  end.

Definition sample_common_items : list (pystr * pyval) :=
  [ (lit "archived_tweet_url", PStr (lit "https://web.archive.org/web/2020/https://twitter.com/u/status/1"));
    (lit "parsed_archived_tweet_url", PStr (lit "https://web.archive.org/web/2020/https://twitter.com/u/status/1"));
    (lit "original_tweet_url", PStr (lit "https://twitter.com/u/status/1"));
    (lit "parsed_tweet_url", PStr (lit "https://twitter.com/u/status/1"));
    (lit "archived_urlkey", PStr (lit "com,twitter)/u/status/1"));
    (lit "archived_timestamp", PStr (lit "20200101000000"));
    (lit "archived_mimetype", PStr (lit "text/html"));
    (lit "archived_statuscode", PStr (lit "200"));
    (lit "archived_digest", PStr (lit "ABCDEF"));
    (lit "archived_length", PStr (lit "1234")) ].

(** A record whose text is not available, and one whose text is. *)
Definition sample_archived_record : list (pystr * pyval) :=
  (lit "available_tweet_text", PStr []) :: sample_common_items.

Definition sample_text_record : list (pystr * pyval) :=
  [ (lit "available_tweet_text", PStr (lit "hello"));
    (lit "available_tweet_is_RT", PBool false);
    (lit "available_tweet_info", PStr (lit "u")) ]
  ++ sample_common_items.

Definition sample_visualizer (records : list pyval) : HTMLTweetsVisualizer :=
  {| username := lit "u"; json_path := PList records;
     html_file_path := Some (lit "out.html") |}.

Definition sample_records : list pyval :=
  [PDict sample_archived_record; PDict sample_text_record].

(** The result of a call that is known to return. *)
Definition returned {A} (r : result (list A)) : list A :=
  match r with
  | Ok a => a
  | Raise _ => []
  end.

Definition sample_document : list elem :=
  returned (generate_elems sample_repr sample_timestamp_parser
              (sample_visualizer sample_records)).

(** Thirty records, told apart by their text: the numbers 0 to 29. *)
Definition numbered_record (i : Z) : pyval :=
  PDict ([ (lit "available_tweet_text", PStr (lit "tweet " ++ str_int i));
           (lit "available_tweet_is_RT", PBool false);
           (lit "available_tweet_info", PStr (lit "u")) ]
         ++ sample_common_items).

Definition thirty_records : list pyval := numbered_record <$> seqZ 0 30.

(** A record without its last field, [archived_length]. *)
Definition sample_incomplete_record : list (pystr * pyval) :=
  take 10 sample_archived_record.

(** A file system with no file, where any file can be created; one
    where [out.html] is there already; and a decoder that knows the
    empty array only. *)
Definition empty_filesystem : filesystem :=
  {| locate := fun path => path; nodes := ∅;
     may_create := fun _ => Ok tt; created_mode := (true, true);
     read_error := fun _ => None; write_error := fun _ _ => None |}.

Definition sample_filesystem : filesystem :=
  set_node empty_filesystem (lit "out.html")
    (RegularFile true true [Byte.x6f; Byte.x6c; Byte.x64]).

(** The same with a second spelling of the path of [out.html]; with a
    device that takes one byte and is full then; with a umask that
    lets the owner neither read nor write the files created; and with
    a sink at [null]. *)
Definition alias_filesystem : filesystem :=
  {| locate := fun path =>
       if bool_decide (path = lit "./out.html") then lit "out.html" else path;
     nodes := nodes sample_filesystem;
     may_create := fun _ => Ok tt; created_mode := (true, true);
     read_error := fun _ => None; write_error := fun _ _ => None |}.

Definition full_filesystem : filesystem :=
  {| locate := fun path => path; nodes := nodes sample_filesystem;
     may_create := fun _ => Ok tt; created_mode := (true, true);
     read_error := fun _ => None;
     write_error := fun _ _ => Some (OSError, 1%nat) |}.

Definition umask_filesystem : filesystem :=
  {| locate := fun path => path; nodes := ∅;
     may_create := fun _ => Ok tt; created_mode := (false, false);
     read_error := fun _ => None; write_error := fun _ _ => None |}.

Definition sink_filesystem : filesystem :=
  set_node empty_filesystem (lit "null") (Sink true).


Definition sample_json_loads (text : pystr) : result pyval :=
  if bool_decide (text = lit "[]") then Ok (PList [])
  else Raise JSONDecodeError.

Definition records_filesystem : filesystem :=
  set_node empty_filesystem (lit "tweets.json")
    (RegularFile true true [Byte.x5b; Byte.x5d]).

(** * More readers of a document *)

(** The number of cards of a document: the pieces that open a card,
    and those that close one. *)
Definition is_tweet_open (e : elem) : bool :=
  match e with
  | TweetOpen => true
  | _ => false
  end.

Definition is_tweet_close (e : elem) : bool :=
  match e with
  | TweetClose => true
  | _ => false
  end.

Definition tweet_cards (doc : list elem) : nat :=
  length (filter (fun e => is_tweet_open e = true) doc).

Definition closed_tweet_cards (doc : list elem) : nat :=
  length (filter (fun e => is_tweet_close e = true) doc).

(** The text of the title, line 69. *)
Definition title_text (username : pystr) : pystr :=
  lit "<title>@" ++ username ++ lit "'s archived tweets</title>\n".

(** The text of the paragraph that shows the tweet text, line 154. *)
Definition available_text_paragraph (text : pystr) : pystr :=
  lit "<p><strong class=$content$>Available Tweet Content:</strong> "
  ++ text ++ lit "</p>\n".

(** * The text of the document

    The text [generate] writes, with the [id] attributes spelled out:
    the [id] of an element (lines 101, 106, 127, 131, 132 and 180),
    and the whole element that carries it. *)
Definition written_id (src : id_source) : pystr :=
  match src with
  | FromLoadingNotice => lit "loading_first_page"
  | FromPage page => lit "page_" ++ str_int page
  | FromPageLink page => lit "page_link_" ++ str_int page
  | FromAccordion part index key_cleaned =>
      part_prefix part ++ str_int index ++ lit "_" ++ key_cleaned
  end.

Definition id_element_text (src : id_source) : pystr :=
  match src with
  | FromLoadingNotice =>
      lit "<p id=$" ++ written_id src
      ++ lit "$>Building pagination with JavaScript...</p>\n"
  | FromPage _ =>
      lit "<div id=$" ++ written_id src ++ lit "$ style=$display:none;$>\n"
  | FromPageLink page =>
      lit "<a href=$#$ id=$" ++ written_id src ++ lit "$ onclick=$showPage("
      ++ str_int page ++ lit ")$>" ++ str_int page ++ lit "</a>\n"
  | FromAccordion TabPart _ _ =>
      lit "<input type=$checkbox$ id=$" ++ written_id src ++ lit "$ />\n"
  | FromAccordion LoadingPart _ _ =>
      lit "<div id=$" ++ written_id src
      ++ lit "$ class=$loading$>Loading...</div>\n"
  | FromAccordion IframePart index key_cleaned =>
      lit "<iframe id=$" ++ written_id src
      ++ lit "$ frameborder=$0$ scrolling=$auto$ loading=$lazy$ style=$display: none;$ onload=$document.getElementById(\'"
      ++ written_id (FromAccordion LoadingPart index key_cleaned)
      ++ lit "\').style.display=\'none\'; this.style.display=\'block\';$></iframe>\n"
  end.

(** A page container around the text of its cards (lines 105 to 108
    and 173), and the pagination block (lines 175 to 181). *)
Definition page_container_text (page : Z) (body : pystr) : pystr :=
  id_element_text (FromPage page) ++ lit "<div class=$container$>\n"
  ++ body ++ lit "</div>\n</div>\n".

Definition pagination_text (total_pages : Z) : pystr :=
  lit "<br>\n" ++ lit "<div class=$pagination$>\n"
  ++ concat ((fun page => id_element_text (FromPageLink page))
             <$> seqZ 1 total_pages)
  ++ lit "</div>\n".

(** The loop of the script, line 189. *)
Definition script_loop_text (total_pages : Z) : pystr :=
  lit "            for (let i = 1; i <= " ++ str_int total_pages
  ++ lit "; i++) {\n".

(** A collapsible section, lines 126 to 150: the checkbox, the label
    that targets it, the loading notice, the iframe, and the script
    that loads [url] into the iframe when the checkbox is ticked. *)
Definition accordion_section_text (index : Z) (key key_cleaned url : pystr)
  : pystr :=
  let tab := written_id (FromAccordion TabPart index key_cleaned) in
  let loading := written_id (FromAccordion LoadingPart index key_cleaned) in
  let iframe := written_id (FromAccordion IframePart index key_cleaned) in
  lit "<div class=$accordion$>\n"
  ++ id_element_text (FromAccordion TabPart index key_cleaned)
  ++ (lit "<label class=$accordion-label$ for=$" ++ tab
      ++ lit "$>Click to load the iframe from " ++ key ++ lit "</label>\n")
  ++ lit "<div class=$accordion-content$>\n"
  ++ id_element_text (FromAccordion LoadingPart index key_cleaned)
  ++ id_element_text (FromAccordion IframePart index key_cleaned)
  ++ lit "</div>\n"
  ++ lit "</div>\n"
  ++ (lit "\n                        <script>\n"
      ++ lit "                        // Loads the src attribute of the iframe tag\n"
      ++ lit "                        document.getElementById('"
      ++ tab
      ++ lit "').addEventListener('change', function() {\n"
      ++ lit "                            if (this.checked) {\n"
      ++ lit "                                document.getElementById('"
      ++ loading
      ++ lit "').style.display = 'block';\n"
      ++ lit "                                document.getElementById('"
      ++ iframe
      ++ lit "').src = '" ++ url ++ lit "';\n"
      ++ lit "                            }\n"
      ++ lit "                        });\n"
      ++ lit "                        </script>\n"
      ++ lit "                        ").

(** The plain-text fields, lines 153 to 156. *)
Definition plain_text_block_text (text is_rt info : pystr) : pystr :=
  lit "<br>\n"
  ++ (lit "<p><strong class=$content$>Available Tweet Content:</strong> "
      ++ text ++ lit "</p>\n")
  ++ (lit "<p><strong class=$content$>Available Tweet Is Retweet:</strong> "
      ++ is_rt ++ lit "</p>\n")
  ++ (lit "<p><strong class=$content$>Available Tweet Username:</strong> "
      ++ info ++ lit "</p>\n").

(** The number of places where [part] occurs in [s]. *)
Fixpoint count_occurrences (part s : pystr) : nat :=
  match s with
  | [] => 0
  | _ :: s' =>
      ((if is_prefix part s then 1 else 0) + count_occurrences part s')%nat
  end.

(** One list occurs in another as a run of consecutive elements. *)
Definition occurs_in {A} (part whole : list A) : Prop :=
  exists before after, whole = before ++ part ++ after.


Section Renderable.

Variable timestamp_parser : pyval -> result pyval.

(** A record [render_tweet] can render: a dict with the fields the
    renderer reads, whose timestamp the helper accepts. *)
Definition renderable (tweet : pyval) : Prop :=
  exists d parsed,
    tweet = PDict d /\ has_expected_fields d
    /\ timestamp_parser (tweet_get d "archived_timestamp") = Ok parsed.

(** The exceptions of the card of a record: a record that is no dict
    cannot be subscripted by a field name; a dict lacks a field that
    is read, or its timestamp makes the helper raise. *)
Definition card_exception (tweet : pyval) (e : exn) : Prop :=
  match tweet with
  | PDict d =>
      (exists key, key ∈ expected_fields d /\ dict_get d (lit key) = None
                   /\ e = KeyError (PStr (lit key)))
      \/ (exists v, dict_get d (lit "archived_timestamp") = Some v
                    /\ timestamp_parser v = Raise e)
  | _ => e = TypeError
  end.

End Renderable.

(** A record with a lone surrogate in its text: what [json.loads]
    makes of the escape [\ud83d]. *)
Definition surrogate_record : list (pystr * pyval) :=
  [ (lit "available_tweet_text", PStr [55357%N]);
    (lit "available_tweet_is_RT", PBool false);
    (lit "available_tweet_info", PStr (lit "u")) ]
  ++ sample_common_items.

(** A file system where [out.html] cannot be written. *)
Definition read_only_filesystem : filesystem :=
  set_node empty_filesystem (lit "out.html")
    (RegularFile true false [Byte.x6f; Byte.x6c; Byte.x64]).

(** ** Which exception a record raises

    [render_tweet] reads the fields of a record in the order of
    [expected_fields]; the timestamp helper is called on line 164,
    after [archived_timestamp] is read and before the four fields of
    lines 165 to 170. *)
Definition lacks (d : list (pystr * pyval)) (key : string) : bool :=
  match dict_get d (lit key) with
  | None => true
  | Some _ => false
  end.

Definition fields_before_helper (d : list (pystr * pyval)) : list string :=
  "available_tweet_text"%string
  :: match dict_get d (lit "available_tweet_text") with
     | Some text => if py_truthy text then plain_text_fields else []
     | None => []
     end
  ++ take 6 common_fields.

Definition fields_after_helper : list string := drop 6 common_fields.

Section FirstException.

Variable timestamp_parser : pyval -> result pyval.

Definition first_exception (d : list (pystr * pyval)) : option exn :=
  match find (lacks d) (fields_before_helper d) with
  | Some key => Some (KeyError (PStr (lit key)))
  | None =>
      match timestamp_parser (tweet_get d "archived_timestamp") with
      | Raise e => Some e
      | Ok _ =>
          (fun key => KeyError (PStr (lit key)))
          <$> find (lacks d) fields_after_helper
      end
  end.

End FirstException.
Arguments lit : simpl never.
Arguments str_int : simpl never.
Arguments py_replace : simpl never.
Arguments render : simpl never.
Arguments head_before_title : simpl never.
Arguments style_sheet : simpl never.
Arguments doctype : simpl never.
Arguments body_open : simpl never.

(** * Basic examples *)

Example lit_escapes : lit "a=$b$\n\'" = [97; 61; 34; 98; 34; 10; 39]%N.
Proof. reflexivity. Qed.

Example str_int_examples :
  str_int 0 = lit "0" /\ str_int 24 = lit "24" /\ str_int (-7) = lit "-7".
Proof. repeat split. Qed.

Example py_replace_key :
  py_replace (lit "Parsed Archived Tweet") (lit " ") (lit "_")
  = lit "Parsed_Archived_Tweet".
Proof. reflexivity. Qed.

Example py_range_example : py_range 24 30 = [24; 25; 26; 27; 28; 29].
Proof. reflexivity. Qed.

Example seq_index_examples :
  seq_index [10; 20; 30] 2 = Ok 30 /\ seq_index [10; 20; 30] (-1) = Ok 30
  /\ seq_index [10; 20; 30] 3 = Raise IndexError.
Proof. repeat split. Qed.

(** * Loops in the result monad *)

Section ResultLemmas.
Context {A B : Type}.
Implicit Types (f : A -> result B) (l : list A).

Lemma mapM_result_cons f x l :
  mapM f (x :: l) = y ← f x; k ← mapM f l; mret (y :: k).
Proof. reflexivity. Qed.

Lemma mapM_result_Ok f l ys :
  mapM f l = Ok ys <-> Forall2 (fun x y => f x = Ok y) l ys.
Proof.
  revert ys. induction l as [|x l IH]; intros ys.
  - split.
    + intros [= <-]. constructor.
    + intros H. inversion H. reflexivity.
  - rewrite mapM_result_cons. split.
    + destruct (f x) as [y|e] eqn:Hx; [|discriminate]. simpl.
      destruct (mapM f l) as [k|e] eqn:Hl; [|discriminate].
      intros [= <-]. constructor; [done|]. by apply IH.
    + intros H. inversion H as [|? y ? k Hx Hl]; subst.
      rewrite Hx. simpl. apply IH in Hl. by rewrite Hl.
Qed.

Lemma mapM_result_app f l1 l2 :
  mapM f (l1 ++ l2) = k1 ← mapM f l1; k2 ← mapM f l2; mret (k1 ++ k2).
Proof.
  induction l1 as [|x l1 IH].
  - change (mapM f []) with (Ok (@nil B)). simpl. by destruct (mapM f l2).
  - rewrite <- app_comm_cons, !mapM_result_cons, IH. destruct (f x); [simpl|done].
    destruct (mapM f l1); [simpl|done]. by destruct (mapM f l2).
Qed.

(** A loop raises exactly when some element does; the exception is
    that of the first such element. *)
Lemma mapM_result_Raise f l e :
  mapM f l = Raise e <->
  exists l1 x l2 ys, l = l1 ++ x :: l2 /\ mapM f l1 = Ok ys /\ f x = Raise e.
Proof.
  induction l as [|x l IH].
  - split; [discriminate|]. intros (l1 & ? & ? & ? & Hl & _).
    by destruct l1.
  - rewrite mapM_result_cons. split.
    + destruct (f x) as [y|e'] eqn:Hx; simpl.
      * destruct (mapM f l) as [k|e'] eqn:Hl; [discriminate|].
        intros [= ->]. destruct (proj1 IH eq_refl) as (l1 & x' & l2 & ys & -> & H1 & H2).
        exists (x :: l1), x', l2, (y :: ys). split; [done|]. split; [|done].
        by rewrite mapM_result_cons, Hx, H1.
      * intros [= ->]. by exists [], x, l, [].
    + intros (l1 & x' & l2 & ys & Hl & H1 & H2).
      destruct l1 as [|x1 l1]; simpl in Hl; injection Hl as <- ->.
      * by rewrite H2.
      * rewrite mapM_result_cons in H1.
        destruct (f x) as [y|]; [simpl in *|done].
        destruct (mapM f l1) as [k|] eqn:Hk; [|done].
        assert (mapM f (l1 ++ x' :: l2) = Raise e) as ->; [|done].
        apply IH. by exists l1, x', l2, k.
Qed.

Lemma mapM_result_ext f g l :
  (forall x, x ∈ l -> f x = g x) -> mapM f l = mapM g l.
Proof.
  induction l as [|x l IH]; intros H; [done|].
  rewrite !mapM_result_cons, H, IH; [done| |by left].
  intros; apply H; by right.
Qed.

Lemma mapM_result_pure (g : A -> B) l : mapM (fun x => Ok (g x)) l = Ok (g <$> l).
Proof.
  induction l as [|x l IH]; [done|]. by rewrite mapM_result_cons, IH.
Qed.

Lemma mapM_result_Ok_total f l :
  (forall x, x ∈ l -> exists y, f x = Ok y) -> exists ys, mapM f l = Ok ys.
Proof.
  induction l as [|x l IH]; intros H.
  - by exists [].
  - destruct (H x) as [y Hy]; [left|].
    destruct IH as [ys Hys]; [intros; apply H; by right|].
    exists (y :: ys). by rewrite mapM_result_cons, Hy, Hys.
Qed.
End ResultLemmas.

Lemma fmap_result_Raise {A B} (g : A -> B) (r : result A) e :
  g <$> r = Raise e <-> r = Raise e.
Proof. destruct r; simpl; split; congruence. Qed.

Lemma mapM_result_fmap_inner {A B C} (g : A -> C -> B) (h : A -> result C)
    (l : list A) :
  mapM (fun x => g x <$> h x) l = zip_with g l <$> mapM h l.
Proof.
  induction l as [|x l IH]; [done|].
  rewrite mapM_result_cons, (mapM_result_cons h), IH.
  destruct (h x); simpl; [|done]. by destruct (mapM h l).
Qed.

Lemma mapM_result_fmap_list {A B C} (f : A -> result B) (g : C -> A)
    (l : list C) :
  mapM f (g <$> l) = mapM (fun x => f (g x)) l.
Proof.
  induction l as [|x l IH]; [done|].
  by rewrite fmap_cons, mapM_result_cons, (mapM_result_cons _ x), IH.
Qed.

Lemma mapM_result_concat {A B} (f : A -> result B) (ls : list (list A)) :
  mapM f (concat ls) = @concat B <$> mapM (mapM f) ls.
Proof.
  induction ls as [|l ls IH]; [done|].
  rewrite concat_cons, mapM_result_app, mapM_result_cons, IH.
  destruct (mapM f l); [simpl|done]. by destruct (mapM (mapM f) ls).
Qed.


Lemma concat_singletons {A B} (g : A -> B) (l : list A) :
  concat ((fun x => [g x]) <$> l) = g <$> l.
Proof. induction l as [|x l IH]; [done|]. simpl. by f_equal. Qed.

Section AppendOnly.
Context {A B : Type}.

Lemma append_only_ret (a : A) : append_only (mret a : M A).
Proof. intros html. unfold mret, M_ret. simpl. by rewrite app_nil_r. Qed.

Lemma append_only_emit e : append_only (emit e).
Proof. done. Qed.

Lemma append_only_emit_all es : append_only (emit_all es).
Proof. done. Qed.

Lemma append_only_eval (r : result A) : append_only (eval r).
Proof. intros html. destruct r; simpl; [|done]. by rewrite app_nil_r. Qed.

Lemma append_only_bind (m : M A) (f : A -> M B) :
  append_only m -> (forall a, append_only (f a)) -> append_only (m ≫= f).
Proof.
  intros Hm Hf html. unfold mbind, M_bind. rewrite Hm.
  destruct (m []) as [[a o]|e]; simpl; [|done].
  rewrite (Hf a (html ++ o)), (Hf a o).
  destruct (f a []) as [[b o']|e]; simpl; [|done]. by rewrite app_assoc.
Qed.

Lemma append_only_for_in (l : list A) (body : A -> M unit) :
  (forall x, append_only (body x)) -> append_only (for_in l body).
Proof.
  intros Hbody. induction l as [|x l IH]; simpl.
  - intros html. unfold mret, M_ret. simpl. by rewrite app_nil_r.
  - intros html. unfold mbind, M_bind. rewrite (Hbody x html).
    destruct (body x []) as [[[] o]|e]; simpl; [|done].
    rewrite (IH (html ++ o)), (IH o).
    destruct (for_in l body []) as [[[] o']|e]; simpl; [|done].
    by rewrite app_assoc.
Qed.

(** What a sequence of two statements appends. *)
Lemma out_bind (m : M unit) (k : M unit) :
  append_only k ->
  out (m;; k) = o1 ← out m; o2 ← out k; mret (o1 ++ o2).
Proof.
  intros Hk. unfold out, mbind at 1, M_bind.
  destruct (m []) as [[[] o]|e]; simpl; [|done].
  rewrite (Hk o). by destruct (k []) as [[[] o']|e].
Qed.

Lemma out_emit_then e (k : M unit) :
  append_only k -> out (emit e;; k) = cons e <$> out k.
Proof.
  intros Hk. unfold out, mbind, M_bind. simpl. rewrite (Hk [e]).
  by destruct (k []) as [[[] o]|].
Qed.

Lemma out_emit_all_then es (k : M unit) :
  append_only k -> out (emit_all es;; k) = app es <$> out k.
Proof.
  intros Hk. unfold out, mbind, M_bind. simpl. rewrite (Hk es).
  by destruct (k []) as [[[] o]|].
Qed.

Lemma out_assign_then e (k : M unit) :
  append_only k -> out (assign e;; k) = cons e <$> out k.
Proof.
  intros Hk. unfold out, mbind, M_bind. simpl. rewrite (Hk [e]).
  by destruct (k []) as [[[] o]|].
Qed.

Lemma out_emit e : out (emit e) = Ok [e].
Proof. done. Qed.

Lemma out_eval_bind (r : result A) (k : A -> M unit) :
  out (eval r ≫= k) = a ← r; out (k a).
Proof. by destruct r. Qed.

(** What a loop appends: the pieces of its iterations, in order. *)
Lemma out_for_in (l : list A) (body : A -> M unit) :
  (forall x, append_only (body x)) ->
  out (for_in l body) = @concat elem <$> mapM (fun x => out (body x)) l.
Proof.
  intros Hbody. induction l as [|x l IH]; [done|].
  simpl for_in. rewrite out_bind by by apply append_only_for_in.
  rewrite mapM_result_cons, IH.
  destruct (out (body x)); [simpl|done].
  by destruct (mapM _ l).
Qed.
End AppendOnly.

(** * Decimal numerals and element ids *)

Lemma ascii_codes_inj s1 s2 : ascii_codes s1 = ascii_codes s2 -> s1 = s2.
Proof.
  unfold ascii_codes. intros H.
  rewrite <- (string_of_list_ascii_of_string s1),
          <- (string_of_list_ascii_of_string s2).
  f_equal. revert H. generalize (list_ascii_of_string s2).
  induction (list_ascii_of_string s1) as [|a l IH]; intros [|b k]; try done.
  rewrite !fmap_cons. intros [= Hab Hlk]. f_equal; [|by apply IH].
  by rewrite <- (ascii_N_embedding a), <- (ascii_N_embedding b), Hab.
Qed.

Lemma to_int_not_nil z : Z.to_int z <> Decimal.Pos Decimal.Nil
                         /\ Z.to_int z <> Decimal.Neg Decimal.Nil.
Proof.
  destruct z as [|p|p]; simpl; split; try done;
    intros [= H]; by apply (DecimalPos.Unsigned.to_uint_nonnil p).
Qed.

Lemma str_int_inj z1 z2 : str_int z1 = str_int z2 -> z1 = z2.
Proof.
  intros H%ascii_codes_inj. apply DecimalZ.to_int_inj.
  destruct (to_int_not_nil z1), (to_int_not_nil z2).
  assert (Some (Z.to_int z1) = Some (Z.to_int z2)) as [= ->]; [|done].
  rewrite <- !NilZero.isi by done. by rewrite H.
Qed.

Lemma string_of_uint_chars d :
  Forall (fun c => is_numeral_char c = true)
         (ascii_codes (NilEmpty.string_of_uint d)).
Proof. induction d; simpl; by constructor. Qed.

Lemma str_int_chars z :
  exists c s, str_int z = c :: s
              /\ Forall (fun c => is_numeral_char c = true) (c :: s).
Proof.
  unfold str_int.
  assert (forall d, exists c s,
            ascii_codes (NilZero.string_of_uint d) = c :: s
            /\ Forall (fun c => is_numeral_char c = true) (c :: s)) as Huint.
  { intros d. pose proof (string_of_uint_chars d) as Hd.
    destruct d; simpl in *; eauto. }
  destruct (Z.to_int z) as [d|d]; simpl.
  - apply Huint.
  - destruct (Huint d) as (c & s & Heq & Hs).
    exists 45%N, (ascii_codes (NilZero.string_of_uint d)).
    split; [reflexivity|]. constructor; [done|]. by rewrite Heq.
Qed.

(** Two texts that start with a numeral and an underscore agree on
    the numeral and on the rest. *)
Lemma numeral_underscore_inj (d1 d2 k1 k2 : list N) :
  Forall (fun c => is_numeral_char c = true) d1 ->
  Forall (fun c => is_numeral_char c = true) d2 ->
  d1 ++ 95%N :: k1 = d2 ++ 95%N :: k2 ->
  d1 = d2 /\ k1 = k2.
Proof.
  intros H1. revert d2. induction H1 as [|c d1 Hc _ IH]; intros d2 H2 Heq.
  - destruct H2 as [|c' d2 Hc' _]; simpl in *; [by injection Heq|].
    injection Heq as <- _. done.
  - destruct H2 as [|c' d2 Hc' H2]; simpl in *.
    + injection Heq as -> _. done.
    + injection Heq as -> Heq. destruct (IH d2 H2 Heq) as [-> ->]. done.
Qed.

(** Replaces the literals of a goal or hypothesis by their code points. *)
Ltac eval_lits :=
  repeat match goal with
         | H : context [lit ?s] |- _ =>
             let v := eval vm_compute in (lit s) in
             change (lit s) with v in H
         | |- context [lit ?s] =>
             let v := eval vm_compute in (lit s) in
             change (lit s) with v
         end.

Lemma str_int_numeral z :
  Forall (fun c => is_numeral_char c = true) (str_int z).
Proof. destruct (str_int_chars z) as (c & s & -> & Hc). done. Qed.

(** A numeral does not start with a letter. *)
Ltac numeral_head H z :=
  let c := fresh "c" in
  let s := fresh "s" in
  let Heq := fresh "Heq" in
  let Hc := fresh "Hc" in
  destruct (str_int_chars z) as (c & s & Heq & Hc);
  rewrite Heq in H; simpl in H;
  apply Forall_cons in Hc as [Hc _];
  injection H; intros; subst; discriminate Hc.

(** Distinct sources give distinct [id] attributes. *)
Lemma id_text_inj src1 src2 : id_text src1 = id_text src2 -> src1 = src2.
Proof.
  unfold id_text, loading_first_page_id, page_id, page_link_id, part_prefix.
  destruct src1 as [|page1|page1|part1 index1 key1],
           src2 as [|page2|page2|part2 index2 key2];
    try destruct part1; try destruct part2;
    intros H; eval_lits; simpl in H; try discriminate H;
    repeat (injection H as H); subst; try reflexivity.
  all: try (apply str_int_inj in H; by subst).
  all: try (destruct (numeral_underscore_inj _ _ _ _
              (str_int_numeral index1) (str_int_numeral index2) H) as [Hi ->];
            apply str_int_inj in Hi; by subst).
  - numeral_head H index2.
  - numeral_head H page1.
  - numeral_head H page2.
  - numeral_head H index1.
Qed.








(** * Page arithmetic *)

Lemma total_pages_ceil n : is_ceil_div n 24 (total_pages n).
Proof.
  unfold is_ceil_div, total_pages, tweets_per_page.
  pose proof (Z.div_mod (n + 24 - 1) 24 ltac:(lia)).
  pose proof (Z.mod_pos_bound (n + 24 - 1) 24 ltac:(lia)).
  lia.
Qed.

Lemma total_pages_nonneg n : 0 <= n -> 0 <= total_pages n.
Proof. pose proof (total_pages_ceil n). unfold is_ceil_div in *. lia. Qed.

Lemma page_range_positions page n :
  py_range (start_index page) (end_index page n)
  = positions (page_lo page) (page_hi page n).
Proof.
  unfold py_range, positions, end_index, page_lo, page_hi.
  unfold start_index, tweets_per_page. f_equal. lia.
Qed.

(** Inside the document every page starts and ends within the records. *)
Lemma page_bounds page n :
  0 <= n -> 1 <= page <= total_pages n ->
  0 <= page_lo page < page_hi page n /\ page_hi page n <= n.
Proof.
  intros Hn Hpage. pose proof (total_pages_ceil n).
  unfold is_ceil_div, page_lo, page_hi in *. lia.
Qed.

Lemma seq_index_lookup {A} (l : list A) (index : Z) x :
  0 <= index -> l !! Z.to_nat index = Some x -> seq_index l index = Ok x.
Proof.
  intros Hindex Hx. unfold seq_index.
  destruct (index <? 0) eqn:Hneg; [lia|]. rewrite Hneg. by rewrite Hx.
Qed.

Lemma seq_index_Ok_nonneg {A} (l : list A) (index : Z) x :
  0 <= index -> seq_index l index = Ok x -> l !! Z.to_nat index = Some x.
Proof.
  intros Hindex. unfold seq_index.
  destruct (index <? 0) eqn:Hneg; [lia|]. rewrite Hneg.
  destruct (l !! _); [congruence|done].
Qed.

(** Indexing along a range of positions reads the records between
    its ends. *)
Lemma mapM_seq_index_positions {A} (l : list A) (lo hi : Z) :
  0 <= lo <= hi -> hi <= Z.of_nat (length l) ->
  mapM (seq_index l) (positions lo hi)
  = Ok (take (Z.to_nat (hi - lo)) (drop (Z.to_nat lo) l)).
Proof.
  intros Hlo Hhi. apply mapM_result_Ok.
  apply Forall2_same_length_lookup_2.
  - unfold positions.
    rewrite length_seqZ, length_take, length_drop. lia.
  - intros i index x Hindex Hx.
    apply lookup_seqZ in Hindex as [-> Hi].
    apply seq_index_lookup; [lia|].
    rewrite lookup_take_Some in Hx. destruct Hx as [Hx _].
    rewrite lookup_drop in Hx. rewrite <- Hx. f_equal. lia.
Qed.

Lemma concat_records_between (records : list pyval) (t : nat) :
  let n := Z.of_nat (length records) in
  Z.of_nat t <= total_pages n ->
  concat ((fun page => records_between records (page_lo page) (page_hi page n))
            <$> seqZ 1 (Z.of_nat t))
  = take (Z.to_nat (Z.min (24 * Z.of_nat t) n)) records.
Proof.
  intros n. induction t as [|t IH]; intros Ht.
  - replace (Z.to_nat _) with 0%nat by lia. done.
  - rewrite seqZ_S, fmap_app, concat_app, IH by lia. simpl.
    rewrite app_nil_r.
    pose proof (total_pages_ceil n) as Hceil.
    unfold records_between, page_lo, page_hi, is_ceil_div in *.
    replace (Z.to_nat ((1 + Z.of_nat t - 1) * 24))
      with (Z.to_nat (Z.min (24 * Z.of_nat t) n)) by lia.
    rewrite take_take_drop. f_equal. lia.
Qed.

Lemma concat_positions (n : Z) (t : nat) :
  0 <= n -> Z.of_nat t <= total_pages n ->
  concat ((fun page => positions (page_lo page) (page_hi page n))
            <$> seqZ 1 (Z.of_nat t))
  = seqZ 0 (Z.min (24 * Z.of_nat t) n).
Proof.
  intros Hn. induction t as [|t IH]; intros Ht.
  - by replace (Z.min _ _) with 0 by lia.
  - rewrite seqZ_S, fmap_app, concat_app, IH by lia. simpl.
    rewrite app_nil_r.
    pose proof (total_pages_ceil n) as Hceil.
    unfold positions, page_lo, page_hi, is_ceil_div in *.
    assert (Z.min (24 * Z.of_nat t) n = 24 * Z.of_nat t) as -> by lia.
    replace ((1 + Z.of_nat t - 1) * 24) with (0 + 24 * Z.of_nat t) by lia.
    rewrite <- seqZ_app by lia. f_equal. lia.
Qed.

Lemma concat_all_positions (n : Z) :
  0 <= n ->
  concat ((fun page => positions (page_lo page) (page_hi page n))
            <$> seqZ 1 (total_pages n))
  = seqZ 0 n.
Proof.
  intros Hn. pose proof (total_pages_nonneg n Hn).
  pose proof (total_pages_ceil n) as Hceil. unfold is_ceil_div in Hceil.
  rewrite <- (Z2Nat.id (total_pages n)) at 1 by done.
  rewrite concat_positions by lia. f_equal. lia.
Qed.

(** * Cards *)

Section Card.
Variable py_repr : pyval -> pystr.
Variable timestamp_parser : pyval -> result pyval.

Abbreviation render_tweet := (render_tweet py_repr timestamp_parser).
Abbreviation card_elems := (card_elems py_repr).

Lemma render_tweet_ok index d parsed :
  has_expected_fields d ->
  timestamp_parser (tweet_get d "archived_timestamp") = Ok parsed ->
  out (render_tweet index (PDict d)) = Ok (card_elems index d parsed).
Proof.
  unfold has_expected_fields, expected_fields.
  intros Hd Hts.
  apply Forall_cons in Hd as [[text Htext] Hd]. rewrite Htext in Hd.
  assert (Hcommon : Forall (has_field d) common_fields).
  { destruct (py_truthy text); [by apply Forall_app in Hd as [_ ?]|done]. }
  unfold common_fields in Hcommon.
  repeat match goal with
  | H : Forall _ (_ :: _) |- _ => apply Forall_cons in H as [[? ?] H]
  end.
  unfold out, render_tweet, render_link, render_text, field,
    card_elems, accordions_block, plain_text_block, common_block,
    link_field, text_field, tweet_get, getitem_str in *.
  destruct (py_truthy text) eqn:Htruthy.
  - apply Forall_app in Hd as [Hd _].
    apply Forall_cons in Hd as [[? ?] Hd]. apply Forall_cons in Hd as [[? ?] Hd].
    repeat match goal with
           | H : dict_get _ _ = Some _ |- _ => rewrite H in *; clear H
           end.
    simpl in Hts.
    unfold mbind, M_bind. simpl. rewrite Htruthy. simpl. rewrite Hts.
    reflexivity.
  - 
    repeat match goal with
           | H : dict_get _ _ = Some _ |- _ => rewrite H in *; clear H
           end.
    simpl in Hts.
    unfold mbind, M_bind. simpl. rewrite Htruthy. simpl. rewrite Hts.
    reflexivity.
Qed.

(** The lookups of [render_tweet], in the order it makes them. *)
Ltac case_field key rest :=
  destruct (dict_get _ (lit key)) eqn:?; simpl; [rest|].

Ltac case_truthy rest_true rest_false :=
  idtac;
  match goal with
  | |- context [py_truthy ?text] =>
      destruct (py_truthy text) eqn:?; simpl; [rest_true|rest_false]
  end.

Ltac case_parser rest :=
  idtac;
  match goal with
  | |- context [timestamp_parser ?v] =>
      destruct (timestamp_parser v) eqn:?; simpl; [rest|]
  end.

Ltac case_common :=
  case_field "archived_tweet_url"%string ltac:(
  case_field "parsed_archived_tweet_url"%string ltac:(
  case_field "original_tweet_url"%string ltac:(
  case_field "parsed_tweet_url"%string ltac:(
  case_field "archived_urlkey"%string ltac:(
  case_field "archived_timestamp"%string ltac:(
  case_parser ltac:(
  case_field "archived_mimetype"%string ltac:(
  case_field "archived_statuscode"%string ltac:(
  case_field "archived_digest"%string ltac:(
  case_field "archived_length"%string ltac:(idtac))))))))))).

Ltac case_fields :=
  case_field "available_tweet_text"%string ltac:(
  case_truthy
    ltac:(case_field "available_tweet_is_RT"%string ltac:(
          case_field "available_tweet_info"%string ltac:(case_common)))
    ltac:(case_common)).

Ltac unfold_render_tweet :=
  unfold out, render_tweet, render_link, render_text, field,
    getitem_str, mbind, M_bind; simpl.

Lemma render_tweet_inv index tweet card :
  out (render_tweet index tweet) = Ok card ->
  exists d parsed,
    tweet = PDict d /\ has_expected_fields d
    /\ timestamp_parser (tweet_get d "archived_timestamp") = Ok parsed
    /\ card = card_elems index d parsed.
Proof.
  intros Hout.
  destruct tweet as [| | | | | |d]; try discriminate.
  assert (has_expected_fields d /\
          exists parsed,
            timestamp_parser (tweet_get d "archived_timestamp") = Ok parsed)
    as [Hd [parsed Hts]].
  { revert Hout. unfold_render_tweet.
    unfold has_expected_fields, expected_fields, tweet_get.
    case_fields; try discriminate; intros _;
      (split; [|simpl; eauto]);
      repeat match goal with
             | H : py_truthy _ = _ |- _ => rewrite H
             | |- Forall _ _ => constructor
             | |- has_field _ _ => eexists; eassumption
             end. }
  exists d, parsed. repeat split; try done.
  rewrite (render_tweet_ok index d parsed Hd Hts) in Hout. congruence.
Qed.

(** A record that makes [render_tweet] raise lacks a field the
    renderer reads, or its timestamp makes the helper raise. *)
Lemma render_tweet_raise index d e :
  out (render_tweet index (PDict d)) = Raise e ->
  (exists key, key ∈ expected_fields d /\ dict_get d (lit key) = None
               /\ e = KeyError (PStr (lit key)))
  \/ (exists v, dict_get d (lit "archived_timestamp") = Some v
                /\ timestamp_parser v = Raise e).
Proof.
  unfold_render_tweet. unfold expected_fields.
  case_fields; intros [= <-];
    first
      [ by right; eauto
      | left; eexists; split; [|split; [eassumption|reflexivity]];
        repeat match goal with
               | H : py_truthy _ = _ |- _ => rewrite H
               end;
        unfold plain_text_fields, common_fields; simpl;
        solve [repeat constructor] ].
Qed.


(** The text of the two content blocks. *)
Lemma render_accordion_text index key value :
  concat (render <$> accordion_elems py_repr index key value)
  = accordion_section_text index key (py_replace key (lit " ") (lit "_"))
      (py_format py_repr value).
Proof.
  unfold accordion_elems. cbn [fmap list_fmap concat].
  rewrite app_nil_r. reflexivity.
Qed.

Lemma render_plain_text d :
  concat (render <$> plain_text_block py_repr d)
  = plain_text_block_text
      (py_format py_repr (tweet_get d "available_tweet_text"))
      (py_format py_repr (tweet_get d "available_tweet_is_RT"))
      (py_format py_repr (tweet_get d "available_tweet_info")).
Proof.
  unfold plain_text_block. cbn [fmap list_fmap concat].
  rewrite app_nil_r. reflexivity.
Qed.

(** C2. A record that has the fields the renderer reads is rendered
    as a card with exactly one of the two content blocks. When
    [available_tweet_text] is falsy the card has exactly four
    collapsible sections, one for each of Archived Tweet, Parsed
    Archived Tweet, Original Tweet and Parsed Tweet, and no plain-text
    content field; when it is truthy the card has the three plain-text
    content fields and no collapsible section. The text of the card is
    the opening tag, then the text of the four sections or that of
    the three fields, then the text of the fields every card has. *)
Theorem render_tweet_content_blocks index d parsed :
  has_expected_fields d ->
  timestamp_parser (tweet_get d "archived_timestamp") = Ok parsed ->
  exists card,
    out (render_tweet index (PDict d)) = Ok card
    /\ (if py_truthy (tweet_get d "available_tweet_text")
        then accordion_count card = 0%nat
             /\ accordion_labels card = []
             /\ plain_text_content card =
                  [ AvailableText
                      (py_format py_repr (tweet_get d "available_tweet_text"));
                    AvailableIsRT
                      (py_format py_repr (tweet_get d "available_tweet_is_RT"));
                    AvailableInfo
                      (py_format py_repr (tweet_get d "available_tweet_info")) ]
        else accordion_count card = 4%nat
             /\ accordion_labels card = iframe_keys
             /\ plain_text_content card = [])
    /\ concat (render <$> card)
       = lit "<div class=$tweet$>\n"
         ++ (if py_truthy (tweet_get d "available_tweet_text")
             then plain_text_block_text
                    (py_format py_repr (tweet_get d "available_tweet_text"))
                    (py_format py_repr (tweet_get d "available_tweet_is_RT"))
                    (py_format py_repr (tweet_get d "available_tweet_info"))
             else accordion_section_text index
                    (lit "Archived Tweet") (lit "Archived_Tweet")
                    (py_format py_repr (tweet_get d "archived_tweet_url"))
                  ++ accordion_section_text index
                       (lit "Parsed Archived Tweet")
                       (lit "Parsed_Archived_Tweet")
                       (py_format py_repr
                          (tweet_get d "parsed_archived_tweet_url"))
                  ++ accordion_section_text index
                       (lit "Original Tweet") (lit "Original_Tweet")
                       (py_format py_repr (tweet_get d "original_tweet_url"))
                  ++ accordion_section_text index
                       (lit "Parsed Tweet") (lit "Parsed_Tweet")
                       (py_format py_repr (tweet_get d "parsed_tweet_url")))
         ++ concat (render <$> common_block py_repr d parsed).
Proof.
  intros Hd Hts. exists (card_elems index d parsed).
  split; [by apply render_tweet_ok|].
  split; [unfold card_elems; by destruct (py_truthy _)|].
  unfold card_elems. rewrite !fmap_app, !concat_app.
  f_equal. f_equal. destruct (py_truthy _).
  - apply render_plain_text.
  - unfold accordions_block.
    rewrite !fmap_app, !concat_app, !render_accordion_text. reflexivity.
Qed.

End Card.

(** * Pages and the document *)

Create HintDb append_only discriminated.

Ltac solve_append_only :=
  repeat first
    [ progress intros
    | solve [auto with append_only nocore]
    | apply append_only_emit
    | apply append_only_emit_all
    | apply append_only_eval
    | apply append_only_ret
    | apply append_only_for_in; intros
    | apply append_only_bind; [|intros]
    | match goal with
      | |- append_only (if ?b then _ else _) => destruct b
      | |- append_only (let '(_, _) := ?p in _) => destruct p
      end ].

Section Document.
Variable py_repr : pyval -> pystr.
Variable timestamp_parser : pyval -> result pyval.

Abbreviation render_tweet := (render_tweet py_repr timestamp_parser).
Abbreviation render_page := (render_page py_repr timestamp_parser).
Abbreviation card_at := (card_at py_repr timestamp_parser).
Abbreviation generate_html := (generate_html py_repr timestamp_parser).
Abbreviation generate_elems := (generate_elems py_repr timestamp_parser).
Abbreviation generate := (generate py_repr timestamp_parser).

Lemma append_only_render_accordion index item :
  append_only (render_accordion py_repr index item).
Proof. unfold render_accordion. solve_append_only. Qed.

Hint Resolve append_only_render_accordion : append_only.

Lemma append_only_render_tweet index tweet :
  append_only (render_tweet index tweet).
Proof.
  unfold render_tweet, render_link, render_text, field.
  solve_append_only.
Qed.
Hint Resolve append_only_render_tweet : append_only.

Lemma append_only_render_page self page :
  append_only (render_page self page).
Proof.
  unfold render_page. solve_append_only.
Qed.
Hint Resolve append_only_render_page : append_only.

(** What the loop body of a page appends. *)
Lemma out_render_page self page :
  out (render_page self page) =
  n ← py_len (json_path self);
  cards ← mapM (card_at self) (py_range (start_index page) (end_index page n));
  mret (page_elems page cards).
Proof.
  unfold render_page.
  rewrite !out_emit_then by solve_append_only. rewrite out_eval_bind.
  destruct (py_len (json_path self)) as [n|e]; simpl; [|done].
  rewrite out_bind by solve_append_only.
  rewrite out_for_in by solve_append_only.
  rewrite (mapM_result_ext _ (card_at self))
    by (intros; apply out_eval_bind).
  fold (end_index page n).
  by destruct (mapM _ _).
Qed.

(** What [generate] appends in all. *)
Lemma generate_elems_eq self :
  generate_elems self =
  n ← py_len (json_path self);
  pages ← mapM (fun page => out (render_page self page))
               (py_range 1 (total_pages n + 1));
  mret (document_elems (username self) (total_pages n) pages).
Proof.
  unfold generate_elems.
  change (snd <$> generate_html self []) with (out (generate_html self)).
  unfold generate_html. rewrite out_eval_bind.
  destruct (py_len (json_path self)) as [n|e]; simpl; [|done].
  rewrite out_assign_then, out_emit_all_then by solve_append_only.
  rewrite out_emit_then, out_emit_all_then by solve_append_only.
  rewrite !out_emit_then by solve_append_only.
  rewrite out_bind by solve_append_only.
  rewrite out_for_in by solve_append_only.
  destruct (mapM _ _) as [pages|e]; simpl; [|done].
  rewrite !out_emit_then by solve_append_only.
  rewrite out_bind by solve_append_only.
  rewrite out_for_in by solve_append_only.
  rewrite (mapM_result_ext _ (fun page => Ok [PageLink page])) by done.
  rewrite mapM_result_pure. simpl.
  rewrite concat_singletons.
  unfold document_elems, prologue, epilogue. simpl.
  reflexivity.
Qed.

(** The structure of a document that [generate] returns. *)
Lemma generate_elems_inv self doc :
  generate_elems self = Ok doc ->
  exists n pages,
    py_len (json_path self) = Ok n
    /\ Forall2 (fun page block =>
          exists cards,
            block = page_elems page cards
            /\ Forall2 (fun index card => card_at self index = Ok card)
                 (py_range (start_index page) (end_index page n)) cards)
        (py_range 1 (total_pages n + 1)) pages
    /\ doc = document_elems (username self) (total_pages n) pages.
Proof.
  rewrite generate_elems_eq.
  destruct (py_len (json_path self)) as [n|] eqn:Hn; [simpl|done].
  destruct (mapM _ _) as [pages|] eqn:Hpages; [simpl|done].
  intros [= <-]. exists n, pages. repeat split.
  apply mapM_result_Ok in Hpages.
  eapply Forall2_impl; [exact Hpages|]. intros page block. simpl.
  rewrite out_render_page, Hn. simpl.
  destruct (mapM _ _) as [cards|] eqn:Hcards; [simpl|done].
  intros [= <-]. exists cards. split; [done|]. by apply mapM_result_Ok.
Qed.

Lemma card_at_inv self index card :
  card_at self index = Ok card ->
  exists d parsed, card = card_elems py_repr index d parsed.
Proof.
  unfold card_at.
  destruct (getitem_int _ _) as [tweet|]; [simpl|done].
  intros (d & parsed & _ & _ & _ & ->)%render_tweet_inv. eauto.
Qed.


Lemma page_containers_card index d parsed :
  page_containers (card_elems py_repr index d parsed) = [].
Proof. unfold card_elems. by destruct (py_truthy _). Qed.

Lemma pagination_links_card index d parsed :
  pagination_links (card_elems py_repr index d parsed) = [].
Proof. unfold card_elems. by destruct (py_truthy _). Qed.

Lemma page_containers_app doc1 doc2 :
  page_containers (doc1 ++ doc2) = page_containers doc1 ++ page_containers doc2.
Proof. apply omap_app. Qed.

Lemma pagination_links_app doc1 doc2 :
  pagination_links (doc1 ++ doc2) = pagination_links doc1 ++ pagination_links doc2.
Proof. apply omap_app. Qed.

Lemma page_containers_cards self indices cards :
  Forall2 (fun index card => card_at self index = Ok card) indices cards ->
  page_containers (concat cards) = [] /\ pagination_links (concat cards) = [].
Proof.
  induction 1 as [|index card indices cards Hcard _ [IH1 IH2]]; [done|].
  apply card_at_inv in Hcard as (d & parsed & ->).
  rewrite concat_cons, page_containers_app, pagination_links_app, IH1, IH2.
  by rewrite page_containers_card, pagination_links_card.
Qed.

Lemma page_containers_pages self n ps pages :
  Forall2 (fun page block =>
      exists cards,
        block = page_elems page cards
        /\ Forall2 (fun index card => card_at self index = Ok card)
             (py_range (start_index page) (end_index page n)) cards)
    ps pages ->
  page_containers (concat pages) = ps /\ pagination_links (concat pages) = [].
Proof.
  induction 1 as [|page block ps pages (cards & -> & Hcards) _ [IH1 IH2]];
    [done|].
  apply page_containers_cards in Hcards as [Hc Hl].
  rewrite concat_cons, page_containers_app, pagination_links_app, IH1, IH2.
  unfold page_elems.
  rewrite !page_containers_app, !pagination_links_app, Hc, Hl. done.
Qed.

Lemma page_containers_epilogue t : page_containers (epilogue t) = [].
Proof.
  unfold epilogue. rewrite !page_containers_app.
  assert (forall l, page_containers (PageLink <$> l) = []) as ->; [|done].
  intros l. by induction l.
Qed.

Lemma pagination_links_epilogue t :
  pagination_links (epilogue t) = py_range 1 (t + 1).
Proof.
  unfold epilogue. rewrite !pagination_links_app.
  assert (forall l, pagination_links (PageLink <$> l) = l) as ->.
  { intros l. induction l as [|x l IH]; [done|].
    unfold pagination_links in *. simpl. by f_equal. }
  simpl. by rewrite app_nil_r.
Qed.


Lemma render_html_app doc1 doc2 :
  render_html (doc1 ++ doc2) = render_html doc1 ++ render_html doc2.
Proof. unfold render_html. by rewrite fmap_app, concat_app. Qed.

Lemma render_html_cons e doc :
  render_html (e :: doc) = render e ++ render_html doc.
Proof. done. Qed.

Lemma Forall2_impl_lookup {A B} (P Q : A -> B -> Prop) l k :
  Forall2 P l k ->
  (forall i x y, l !! i = Some x -> k !! i = Some y -> P x y -> Q x y) ->
  Forall2 Q l k.
Proof.
  intros HP Himpl. apply Forall2_same_length_lookup in HP as [Hlen HP].
  apply Forall2_same_length_lookup. split; [done|]. eauto.
Qed.

(** C1. For [n] records [generate] computes [total_pages] as the
    ceiling of [n / 24]. The inner loop of page [k], for [k] from 1 to
    [total_pages], visits exactly the positions from [(k - 1) * 24] up
    to but not including [min (k * 24) n], in increasing order, and
    reads the records at these positions. The record ranges of the
    pages, put one after the other in page order, are the record list
    itself. A document that [generate] returns consists of the page
    containers of the pages 1 to [total_pages], and the container of a
    page shows the cards of the records of that page, in order. *)
Theorem generate_pagination self records :
  json_path self = PList records ->
  let n := Z.of_nat (length records) in
  is_ceil_div n 24 (total_pages n)
  /\ (forall page, 1 <= page <= total_pages n ->
        py_range (start_index page) (end_index page n)
        = positions (page_lo page) (page_hi page n)
        /\ page_tweets self page
           = Ok (records_between records (page_lo page) (page_hi page n)))
  /\ concat ((fun page =>
               records_between records (page_lo page) (page_hi page n))
             <$> seqZ 1 (total_pages n)) = records
  /\ (forall doc, generate_elems self = Ok doc ->
        exists pages,
          doc = document_elems (username self) (total_pages n) pages
          /\ Forall2 (page_shows py_repr timestamp_parser records)
               (seqZ 1 (total_pages n)) pages).
Proof.
  intros Hjp n.
  assert (0 <= n) as Hn by lia.
  pose proof (total_pages_ceil n) as Hceil.
  pose proof (total_pages_nonneg n Hn) as Hpages.
  split; [done|]. split; [|split].
  - intros page Hpage. split; [apply page_range_positions|].
    unfold page_tweets. rewrite Hjp. simpl. fold n.
    rewrite page_range_positions.
    destruct (page_bounds page n Hn Hpage) as [Hlo Hhi].
    apply (mapM_seq_index_positions records); [lia|done].
  - pose proof (concat_records_between records (Z.to_nat (total_pages n))) as H.
    simpl in H. fold n in H. rewrite Z2Nat.id in H by done.
    rewrite H by lia. apply firstn_all2. unfold is_ceil_div in Hceil. lia.
  - intros doc (n' & pages & Hn' & Hshow & ->)%generate_elems_inv.
    rewrite Hjp in Hn'. injection Hn' as <-. fold n in Hshow |- *.
    exists pages. split; [done|].
    replace (py_range 1 (total_pages n + 1)) with (seqZ 1 (total_pages n))
      in Hshow by (unfold py_range; f_equal; lia).
    eapply Forall2_impl_lookup; [exact Hshow|].
    intros i page block [-> Hi]%lookup_seqZ _ (cards & -> & Hcards).
    exists cards. split; [done|].
    rewrite page_range_positions in Hcards.
    destruct (page_bounds (1 + Z.of_nat i) n Hn ltac:(lia)) as [Hlo Hhi].
    eapply Forall2_impl_lookup; [exact Hcards|].
    intros j index card [-> Hj]%lookup_seqZ _ Hcard.
    unfold card_at in Hcard. rewrite Hjp in Hcard. simpl in Hcard.
    destruct (seq_index records _) as [tweet|] eqn:Htweet; [|done].
    exists tweet. split; [|done].
    apply seq_index_Ok_nonneg in Htweet; [done|lia].
Qed.

Lemma py_len_nonneg obj n : py_len obj = Ok n -> 0 <= n.
Proof. destruct obj; intros [= <-] || done; lia. Qed.

(** The pages together render the records from first to last. *)
Lemma mapM_render_pages self n :
  py_len (json_path self) = Ok n ->
  mapM (fun page => out (render_page self page)) (py_range 1 (total_pages n + 1))
  = blocks ← mapM (mapM (card_at self))
               ((fun page => positions (page_lo page) (page_hi page n))
                  <$> seqZ 1 (total_pages n));
    mret (zip_with page_elems (seqZ 1 (total_pages n)) blocks).
Proof.
  intros Hn.
  replace (py_range 1 (total_pages n + 1)) with (seqZ 1 (total_pages n))
    by (unfold py_range; f_equal; lia).
  rewrite (mapM_result_ext _
    (fun page => page_elems page <$>
       mapM (card_at self) (positions (page_lo page) (page_hi page n)))).
  - rewrite mapM_result_fmap_inner, mapM_result_fmap_list.
    by destruct (mapM _ _).
  - intros page _. rewrite out_render_page, Hn. simpl.
    rewrite page_range_positions. by destruct (mapM _ _).
Qed.

(** [generate] raises exactly when rendering the records one after
    the other, from the first to the last, raises, and then with the
    same exception. *)
Lemma generate_elems_Raise self n e :
  py_len (json_path self) = Ok n ->
  generate_elems self = Raise e <-> mapM (card_at self) (seqZ 0 n) = Raise e.
Proof.
  intros Hn. pose proof (py_len_nonneg _ _ Hn).
  rewrite generate_elems_eq, Hn. simpl.
  rewrite (mapM_render_pages self n Hn).
  rewrite <- (concat_all_positions n) by done.
  rewrite mapM_result_concat.
  destruct (mapM (mapM _) _);
    cbv [mbind mret result_bind result_ret fmap result_fmap];
    split; congruence.
Qed.

Lemma generate_elems_total self n :
  py_len (json_path self) = Ok n ->
  (forall index, 0 <= index < n -> exists card, card_at self index = Ok card) ->
  exists doc, generate_elems self = Ok doc.
Proof.
  intros Hn Hcards.
  destruct (generate_elems self) as [doc|e] eqn:Hdoc; [eauto|].
  apply (generate_elems_Raise self n e Hn) in Hdoc.
  destruct (mapM_result_Ok_total (card_at self) (seqZ 0 n)) as [cards Hok].
  - intros index Hindex%elem_of_seqZ. apply Hcards. lia.
  - congruence.
Qed.

(** On a list of records that have the fields the renderer reads and
    whose timestamps the helper accepts, [generate] returns. *)
Lemma generate_returns self ds :
  json_path self = PList (PDict <$> ds) ->
  Forall has_expected_fields ds ->
  (forall d, d ∈ ds ->
     exists parsed,
       timestamp_parser (tweet_get d "archived_timestamp") = Ok parsed) ->
  exists doc, generate_elems self = Ok doc
              /\ generate self = Ok (render_html doc).
Proof.
  intros Hjp Hfields Hparser.
  destruct (generate_elems_total self (Z.of_nat (length (PDict <$> ds))))
    as [doc Hdoc].
  - by rewrite Hjp.
  - intros index Hindex. rewrite length_fmap in Hindex.
    destruct (ds !! Z.to_nat index) as [d|] eqn:Hd.
    2: { apply lookup_ge_None in Hd. lia. }
    assert (d ∈ ds) as Hin by (eapply list_elem_of_lookup_2; eauto).
    destruct (Hparser d Hin) as [parsed Hparsed].
    exists (card_elems py_repr index d parsed).
    unfold card_at. rewrite Hjp. simpl.
    rewrite (seq_index_lookup (PDict <$> ds) index (PDict d)); [|lia|].
    + simpl. apply render_tweet_ok; [|done].
      rewrite Forall_forall in Hfields. by apply Hfields.
    + by rewrite list_lookup_fmap, Hd.
  - exists doc. split; [done|]. unfold generate. by rewrite Hdoc.
Qed.

(** C6. When some record of the list lacks a field the renderer
    reads (for a record whose [available_tweet_text] is truthy these
    include [available_tweet_is_RT] and [available_tweet_info]),
    [generate] raises and returns no string. When moreover the
    timestamp helper accepts the timestamps of the records, the
    exception is the [KeyError] of a field that a record lacks. *)
Theorem generate_missing_field self ds :
  json_path self = PList (PDict <$> ds) ->
  (exists d key, d ∈ ds /\ key ∈ expected_fields d
                 /\ dict_get d (lit key) = None) ->
  (exists e, generate self = Raise e)
  /\ ((forall d v, d ∈ ds ->
         dict_get d (lit "archived_timestamp") = Some v ->
         exists parsed, timestamp_parser v = Ok parsed) ->
      exists d key,
        d ∈ ds /\ key ∈ expected_fields d /\ dict_get d (lit key) = None
        /\ generate self = Raise (KeyError (PStr (lit key)))).
Proof.
  intros Hjp (d & key & Hd & Hkey & Hmissing).
  set (n := Z.of_nat (length (PDict <$> ds))).
  assert (py_len (json_path self) = Ok n) as Hn by by rewrite Hjp.
  assert (forall index d', ds !! Z.to_nat index = Some d' -> 0 <= index ->
            card_at self index = out (render_tweet index (PDict d')))
    as Hcard.
  { intros index d' Hd' Hindex. unfold card_at. rewrite Hjp. simpl.
    rewrite (seq_index_lookup (PDict <$> ds) index (PDict d')); [done|lia|].
    by rewrite list_lookup_fmap, Hd'. }
  assert (exists e, generate_elems self = Raise e) as [e He].
  { destruct (generate_elems self) as [doc|e] eqn:Hdoc; [|eauto].
    exfalso.
    destruct (mapM (card_at self) (seqZ 0 n)) as [cards|e] eqn:Hcards.
    2: { apply (generate_elems_Raise self n e Hn) in Hcards. congruence. }
    apply mapM_result_Ok in Hcards.
    apply list_elem_of_lookup in Hd as [i Hi].
    assert (seqZ 0 n !! i = Some (Z.of_nat i)) as Hindex.
    { apply lookup_seqZ. split; [lia|]. apply lookup_lt_Some in Hi.
      unfold n. rewrite length_fmap. lia. }
    destruct (Forall2_lookup_l _ _ _ _ _ Hcards Hindex) as (card & _ & Hcard').
    rewrite (Hcard _ d) in Hcard' by (rewrite ?Nat2Z.id; done || lia).
    apply render_tweet_inv in Hcard' as (d' & _ & [= <-] & Hfields & _).
    unfold has_expected_fields in Hfields.
    rewrite Forall_forall in Hfields. apply Hfields in Hkey.
    unfold has_field in Hkey. rewrite Hmissing in Hkey.
    by destruct Hkey. }
  split.
  { exists e. unfold generate. by rewrite He. }
  intros Hparser.
  pose proof He as Hraise.
  apply (generate_elems_Raise self n e Hn) in Hraise.
  apply mapM_result_Raise in Hraise
    as (l1 & index & l2 & cards & Hsplit & _ & Hindex).
  assert (0 <= index < n) as Hrange.
  { assert (index ∈ seqZ 0 n) as Hin%elem_of_seqZ; [|lia].
    rewrite Hsplit. apply elem_of_app. right. left. }
  destruct (ds !! Z.to_nat index) as [d'|] eqn:Hd'.
  2: { apply lookup_ge_None in Hd'. unfold n in Hrange.
       rewrite length_fmap in Hrange. lia. }
  rewrite (Hcard _ d') in Hindex by (done || lia).
  assert (d' ∈ ds) as Hin by (eapply list_elem_of_lookup_2; eauto).
  apply render_tweet_raise in Hindex
    as [(key' & Hkey' & Hnone & ->)|(v & Hv & Hfail)].
  - exists d', key'. repeat split; try done. unfold generate. by rewrite He.
  - destruct (Hparser d' v Hin Hv) as [parsed Hparsed]. congruence.
Qed.






#[local] Instance id_text_injective : Inj (=) (=) id_text.
Proof. intros src1 src2. apply id_text_inj. Qed.

#[local] Instance FromPageLink_injective : Inj (=) (=) FromPageLink.
Proof. by intros page1 page2 [=]. Qed.




(** The layout of the returned string: the head and heading, then one
    page container for each page from 1 to [total_pages], then the
    pagination block with one link for each page, then the rest. *)
Lemma generate_layout self html :
  generate self = Ok html ->
  exists n bodies,
    py_len (json_path self) = Ok n
    /\ length bodies = Z.to_nat (total_pages n)
    /\ html =
       render_html (prologue (username self))
       ++ concat (zip_with page_text (seqZ 1 (total_pages n)) bodies)
       ++ render_html [Br; PaginationOpen]
       ++ concat (page_link_text <$> seqZ 1 (total_pages n))
       ++ render_html [ PaginationClose; Attribution;
                        PaginationScript (total_pages n);
                        Markup (lit "</body>\n"); Markup (lit "</html>") ].
Proof.
  unfold generate.
  destruct (generate_elems self) as [doc|] eqn:Hdoc; [|done].
  intros [= <-].
  apply generate_elems_inv in Hdoc as (n & pages & Hn & Hpages & ->).
  replace (py_range 1 (total_pages n + 1)) with (seqZ 1 (total_pages n))
    in Hpages by (unfold py_range; f_equal; lia).
  assert (exists bodies,
            length bodies = length pages
            /\ render_html (concat pages)
               = concat (zip_with page_text (seqZ 1 (total_pages n)) bodies))
    as (bodies & Hlen & Hbodies).
  { clear Hn. induction Hpages as [|page block ps pages (cards & -> & _) _ IH].
    - by exists [].
    - destruct IH as (bodies & Hlen & Hbodies).
      exists (render_html (concat cards) :: bodies).
      split; [by cbn [length]; f_equal|].
      rewrite concat_cons, render_html_app, Hbodies.
      cbn [zip_with]. rewrite concat_cons. f_equal.
      unfold page_elems, page_text. cbn [app].
      rewrite !render_html_cons, render_html_app.
      by rewrite <- ?app_assoc. }
  exists n, bodies. split; [done|]. split.
  { rewrite Hlen, <- (Forall2_length _ _ _ Hpages), length_seqZ. done. }
  unfold document_elems, epilogue.
  rewrite !render_html_app, Hbodies. do 3 f_equal.
  replace (py_range 1 (total_pages n + 1)) with (seqZ 1 (total_pages n))
    by (unfold py_range; f_equal; lia).
  unfold render_html at 1. by rewrite <- list_fmap_compose.
Qed.

(** C4. With no records [total_pages] is 0 and [generate] returns a
    document with no page container and no pagination link; the heading
    is there, with the username in it. The document is the prologue
    followed at once by the epilogue, whose pagination block holds no
    link. *)
Theorem generate_no_records u path :
  let self := {| username := u; json_path := PList [];
                 html_file_path := path |} in
  total_pages 0 = 0
  /\ generate_elems self = Ok (prologue u ++ epilogue 0)
  /\ epilogue 0 = [ Br; PaginationOpen; PaginationClose; Attribution;
                    PaginationScript 0; Markup (lit "</body>\n");
                    Markup (lit "</html>") ]
  /\ page_containers (prologue u ++ epilogue 0) = []
  /\ pagination_links (prologue u ++ epilogue 0) = []
  /\ Heading u ∈ prologue u ++ epilogue 0
  /\ exists before after,
       generate self = Ok (before ++ heading_text u ++ after).
Proof.
  intros self.
  assert (generate_elems self = Ok (prologue u ++ epilogue 0)) as Hdoc.
  { rewrite generate_elems_eq. reflexivity. }
  split; [reflexivity|]. split; [exact Hdoc|]. split; [reflexivity|].
  split; [by rewrite page_containers_app, page_containers_epilogue|].
  split; [by rewrite pagination_links_app, pagination_links_epilogue|].
  assert (prologue u ++ epilogue 0
          = (doctype :: head_before_title ++ [Title u] ++ style_sheet
               ++ [body_open])
            ++ Heading u :: LoadingFirstPage :: epilogue 0) as Hsplit.
  { unfold prologue. rewrite <- !app_comm_cons, <- !app_assoc. reflexivity. }
  split.
  - rewrite Hsplit. apply elem_of_app. right. left.
  - unfold generate. rewrite Hdoc. unfold fmap, result_fmap.
    eexists _, _. by rewrite Hsplit, render_html_app, render_html_cons.
Qed.

End Document.

(** * The sample report *)

Lemma sample_document_generated :
  generate_elems sample_repr sample_timestamp_parser
    (sample_visualizer sample_records) = Ok sample_document.
Proof. vm_compute. reflexivity. Qed.


Lemma sample_text_record_expected : has_expected_fields sample_text_record.
Proof. repeat constructor; eexists; reflexivity. Qed.

Lemma sample_archived_record_expected :
  has_expected_fields sample_archived_record.
Proof. repeat constructor; eexists; reflexivity. Qed.


Lemma generate_pagination_witness :
  total_pages 30 = 2
  /\ page_tweets (sample_visualizer thirty_records) 1
     = Ok (numbered_record <$> seqZ 0 24)
  /\ page_tweets (sample_visualizer thirty_records) 2
     = Ok (numbered_record <$> seqZ 24 6).
Proof.
  destruct (generate_pagination sample_repr sample_timestamp_parser
              (sample_visualizer thirty_records) thirty_records eq_refl)
    as (_ & Hpages & _).
  split; [reflexivity|]. split.
  - destruct (Hpages 1) as [_ ->]; [by vm_compute|]. reflexivity.
  - destruct (Hpages 2) as [_ ->]; [by vm_compute|]. reflexivity.
Defined.

Lemma generate_missing_field_witness :
  exists key,
    generate sample_repr sample_timestamp_parser
      (sample_visualizer
         (PDict <$> [sample_text_record; sample_incomplete_record]))
    = Raise (KeyError (PStr (lit key))).
Proof.
  destruct (generate_missing_field sample_repr sample_timestamp_parser
              (sample_visualizer
                 (PDict <$> [sample_text_record; sample_incomplete_record]))
              [sample_text_record; sample_incomplete_record] eq_refl)
    as [_ Hkey].
  - exists sample_incomplete_record, "archived_length"%string.
    split; [by right; left|]. split; [|reflexivity].
    by vm_compute; repeat constructor.
  - destruct Hkey as (d & key & _ & _ & _ & Hraise); [|by exists key].
    intros d v Hd Hv.
    assert (exists s, v = PStr s) as [s ->]; [|by eexists].
    apply elem_of_cons in Hd as [->|Hd];
      [|apply elem_of_cons in Hd as [->|Hd]; [|by inversion Hd]];
      vm_compute in Hv; injection Hv as <-; by eexists.
Defined.



(** The examples of the specification: no record, and thirty. *)
Example thirty_records_pages :
  total_pages 30 = 2
  /\ py_range (start_index 1) (end_index 1 30) = seqZ 0 24
  /\ py_range (start_index 2) (end_index 2 30) = seqZ 24 6.
Proof. by vm_compute. Qed.

Example sample_document_ids :
  element_ids sample_document
  = [ lit "loading_first_page"; lit "page_1";
      lit "tab_0_Archived_Tweet"; lit "loading_0_Archived_Tweet";
      lit "iframe_0_Archived_Tweet";
      lit "tab_0_Parsed_Archived_Tweet"; lit "loading_0_Parsed_Archived_Tweet";
      lit "iframe_0_Parsed_Archived_Tweet";
      lit "tab_0_Original_Tweet"; lit "loading_0_Original_Tweet";
      lit "iframe_0_Original_Tweet";
      lit "tab_0_Parsed_Tweet"; lit "loading_0_Parsed_Tweet";
      lit "iframe_0_Parsed_Tweet";
      lit "page_link_1" ].
Proof. by vm_compute. Qed.

(** * UTF-8 *)

Lemma to_N_byte_of n : (n < 256)%N -> Byte.to_N (byte_of n) = n.
Proof.
  intros Hn. unfold byte_of.
  destruct (Byte.of_N n) as [b|] eqn:Hb; simpl.
  - by apply Byte.to_of_N.
  - apply Byte.of_N_None_iff in Hb. lia.
Qed.

Ltac div_lia := zify; Z.to_euclidean_division_equations; lia.

Lemma continuation_bits_continuation bits :
  continuation_bits (continuation bits) = Some (bits mod 64)%N.
Proof.
  unfold continuation_bits, continuation.
  rewrite to_N_byte_of by div_lia.
  destruct (N.leb_spec 128 (128 + bits mod 64)); [|div_lia].
  destruct (N.ltb_spec (128 + bits mod 64) 192); [|div_lia].
  simpl. f_equal. lia.
Qed.

(** Settles the tests of the decoder on the bytes of the encoder. *)
Ltac decide_tests :=
  repeat match goal with
         | |- context [(?a <? ?b)%N] =>
             destruct (N.ltb_spec a b); try (exfalso; div_lia)
         | |- context [(?a <=? ?b)%N] =>
             destruct (N.leb_spec a b); try (exfalso; div_lia)
         end.

(** Decoding undoes the encoding of a character. *)
Lemma utf8_decode_encode_char c bs rest :
  utf8_encode_char c = Ok bs ->
  utf8_decode (bs ++ rest) = cons c <$> utf8_decode rest.
Proof.
  unfold utf8_encode_char.
  destruct (N.ltb_spec c 128) as [H1|H1].
  { intros [= <-]. cbn [app utf8_decode]. rewrite to_N_byte_of by lia.
    by decide_tests. }
  destruct (N.ltb_spec c 2048) as [H2|H2].
  { intros [= <-]. cbn [app utf8_decode].
    rewrite !to_N_byte_of, !continuation_bits_continuation by div_lia.
    decide_tests. f_equal. f_equal. div_lia. }
  destruct (N.ltb_spec c 65536) as [H3|H3].
  { destruct (N.leb_spec 55296 c) as [H4|H4];
      [destruct (N.leb_spec c 57343) as [H5|H5]|]; simpl andb;
      intros [= <-]; cbn [app utf8_decode];
      rewrite !to_N_byte_of, !continuation_bits_continuation by div_lia;
      cbv zeta; decide_tests; simpl; f_equal; f_equal; div_lia. }
  destruct (N.ltb_spec c 1114112) as [H4|H4]; [|done].
  intros [= <-]. cbn [app utf8_decode].
  rewrite !to_N_byte_of, !continuation_bits_continuation by div_lia.
  cbv zeta. decide_tests. simpl. f_equal. f_equal. div_lia.
Qed.

Lemma utf8_encode_cons c s :
  utf8_encode (c :: s)
  = bs ← utf8_encode_char c; bytes ← utf8_encode s; mret (bs ++ bytes).
Proof.
  unfold utf8_encode. rewrite mapM_result_cons.
  destruct (utf8_encode_char c); [simpl|done].
  by destruct (mapM utf8_encode_char s).
Qed.

(** Decoding undoes encoding. *)
Lemma utf8_decode_encode s bytes :
  utf8_encode s = Ok bytes -> utf8_decode bytes = Ok s.
Proof.
  revert bytes. induction s as [|c s IH]; intros bytes.
  - by intros [= <-].
  - rewrite utf8_encode_cons.
    destruct (utf8_encode_char c) as [bs|] eqn:Hc; [simpl|done].
    destruct (utf8_encode s) as [bytes'|]; [simpl|done].
    intros [= <-]. rewrite (utf8_decode_encode_char c bs bytes' Hc).
    by rewrite (IH bytes').
Qed.

(** Exactly the strings without surrogates have an encoding. *)
Lemma utf8_encode_char_Ok c :
  is_scalar_value c <-> exists bs, utf8_encode_char c = Ok bs.
Proof.
  unfold is_scalar_value, utf8_encode_char.
  destruct (N.ltb_spec c 128); [split; [eauto|lia]|].
  destruct (N.ltb_spec c 2048); [split; [eauto|lia]|].
  destruct (N.ltb_spec c 65536).
  - destruct (N.leb_spec 55296 c), (N.leb_spec c 57343); simpl;
      (split; [intros; try lia; eauto|intros [? ?]; try done; lia]).
  - destruct (N.ltb_spec c 1114112);
      (split; [intros; try lia; eauto|intros [? ?]; try done; lia]).
Qed.

Lemma utf8_encode_Ok s : encodable s <-> exists bytes, utf8_encode s = Ok bytes.
Proof.
  unfold encodable. induction s as [|c s IH].
  - split; [by exists []|constructor].
  - rewrite Forall_cons, utf8_encode_cons, IH, utf8_encode_char_Ok.
    split.
    + intros [[bs ->] [bytes ->]]. simpl. eauto.
    + destruct (utf8_encode_char c); [simpl|by intros [? ?]].
      destruct (utf8_encode s); [eauto|by intros [? ?]].
Qed.

(** * Newlines *)

Lemma replace_from_same c s : replace_from [c] [c] 0 s = s.
Proof.
  induction s as [|c' s IH]; [done|]. simpl.
  destruct (N.eqb_spec c c') as [->|]; simpl; by rewrite IH.
Qed.

(** Where [os.linesep] is the line feed, writing changes nothing. *)
Lemma translate_on_write_posix s : translate_on_write (lit "\n") s = s.
Proof. apply replace_from_same. Qed.

Lemma replace_from_absent c new s :
  c ∉ s -> replace_from [c] new 0 s = s.
Proof.
  induction s as [|c' s IH]; [done|].
  intros [Hc Hs]%not_elem_of_cons. simpl.
  destruct (N.eqb_spec c c') as [->|]; [done|]. simpl. by rewrite IH.
Qed.

Lemma translate_on_write_id linesep s :
  linesep = lit "\n" \/ 10%N ∉ s -> translate_on_write linesep s = s.
Proof.
  intros [->|Hs]; [apply translate_on_write_posix|].
  by apply replace_from_absent.
Qed.

Lemma universal_newlines_id s : 13%N ∉ s -> universal_newlines s = s.
Proof.
  induction s as [|c s IH]; [done|].
  intros [Hc Hs]%not_elem_of_cons. simpl.
  rewrite (IH Hs).
  destruct c as [|p]; [done|].
  do 4 (destruct p as [p|p|]; try done).
Qed.

(** * More about [generate] *)

Lemma occurs_in_refl {A} (l : list A) : occurs_in l l.
Proof. exists [], []. by rewrite app_nil_r. Qed.

Lemma occurs_in_trans {A} (l1 l2 l3 : list A) :
  occurs_in l1 l2 -> occurs_in l2 l3 -> occurs_in l1 l3.
Proof.
  intros (b1 & a1 & ->) (b2 & a2 & ->).
  exists (b2 ++ b1), (a1 ++ a2). by rewrite <- !app_assoc.
Qed.

Lemma occurs_in_app_l {A} (l before after : list A) :
  occurs_in l after -> occurs_in l (before ++ after).
Proof.
  intros (b & a & ->). exists (before ++ b), a. by rewrite <- !app_assoc.
Qed.

Lemma occurs_in_app_r {A} (l before after : list A) :
  occurs_in l before -> occurs_in l (before ++ after).
Proof.
  intros (b & a & ->). exists b, (a ++ after). by rewrite <- !app_assoc.
Qed.

Lemma occurs_in_concat {A} (l : list A) (ls : list (list A)) :
  l ∈ ls -> occurs_in l (concat ls).
Proof.
  intros (l1 & l2 & ->)%list_elem_of_split.
  rewrite concat_app, concat_cons.
  apply occurs_in_app_l, occurs_in_app_r, occurs_in_refl.
Qed.

Lemma occurs_in_render_html (part whole : list elem) :
  occurs_in part whole -> occurs_in (render_html part) (render_html whole).
Proof.
  intros (b & a & ->). exists (render_html b), (render_html a).
  by rewrite !render_html_app.
Qed.

Section Coverage.
Variable py_repr : pyval -> pystr.
Variable timestamp_parser : pyval -> result pyval.

Abbreviation render_tweet := (render_tweet py_repr timestamp_parser).
Abbreviation card_at := (card_at py_repr timestamp_parser).
Abbreviation generate_elems := (generate_elems py_repr timestamp_parser).
Abbreviation generate := (generate py_repr timestamp_parser).
Abbreviation renderable := (renderable timestamp_parser).
Abbreviation card_exception := (card_exception timestamp_parser).

Lemma generate_Ok_elems self html :
  generate self = Ok html ->
  exists doc, generate_elems self = Ok doc /\ html = render_html doc.
Proof.
  unfold generate. destruct (generate_elems self) as [doc|]; [|done].
  intros [= <-]. eauto.
Qed.

Lemma generate_Raise_elems self e :
  generate self = Raise e <-> generate_elems self = Raise e.
Proof. unfold generate. apply fmap_result_Raise. Qed.

(** The card of a record of a list. *)
Lemma card_at_list self records (i : nat) tweet :
  json_path self = PList records ->
  records !! i = Some tweet ->
  card_at self (Z.of_nat i) = out (render_tweet (Z.of_nat i) tweet).
Proof.
  intros Hjp Hi. unfold card_at. rewrite Hjp. simpl.
  rewrite (seq_index_lookup records (Z.of_nat i) tweet); [done|lia|].
  by rewrite Nat2Z.id.
Qed.

(** The cards of a returned document are those of the records, from
    the first to the last, grouped by page. *)
Lemma generate_elems_cards self n doc :
  py_len (json_path self) = Ok n ->
  generate_elems self = Ok doc ->
  exists blocks,
    Forall2 (fun page cards =>
               Forall2 (fun index card => card_at self index = Ok card)
                 (positions (page_lo page) (page_hi page n)) cards)
      (seqZ 1 (total_pages n)) blocks
    /\ mapM (card_at self) (seqZ 0 n) = Ok (concat blocks)
    /\ doc = document_elems (username self) (total_pages n)
               (zip_with page_elems (seqZ 1 (total_pages n)) blocks).
Proof.
  intros Hn. pose proof (py_len_nonneg _ _ Hn) as Hnonneg.
  rewrite generate_elems_eq, Hn. simpl.
  rewrite (mapM_render_pages py_repr timestamp_parser self n Hn).
  destruct (mapM (mapM _) _) as [blocks|] eqn:Hblocks; [simpl|done].
  intros [= <-]. exists blocks. split; [|split; [|done]].
  - apply mapM_result_Ok in Hblocks. apply Forall2_fmap_l in Hblocks.
    eapply Forall2_impl; [exact Hblocks|].
    intros page cards Hcards. by apply mapM_result_Ok.
  - rewrite <- (concat_all_positions n) by done.
    by rewrite mapM_result_concat, Hblocks.
Qed.

Lemma render_tweet_not_dict index tweet e :
  (forall d, tweet <> PDict d) ->
  out (render_tweet index tweet) = Raise e -> e = TypeError.
Proof. destruct tweet; try (by intros _ [= <-]). intros H. by destruct (H d). Qed.

Lemma render_tweet_renderable index tweet :
  (exists card, out (render_tweet index tweet) = Ok card) <-> renderable tweet.
Proof.
  split.
  - intros [card (d & parsed & -> & Hd & Hts & _)%render_tweet_inv].
    by exists d, parsed.
  - intros (d & parsed & -> & Hd & Hts). eexists.
    by apply render_tweet_ok.
Qed.

(** X1. On a list, [generate] returns exactly when every record can
    be rendered: it is a dict, it has the fields the renderer reads
    from it, and the timestamp helper accepts its timestamp. *)
Theorem generate_returns_iff self records :
  json_path self = PList records ->
  (exists html, generate self = Ok html) <-> Forall renderable records.
Proof.
  intros Hjp.
  assert (py_len (json_path self) = Ok (Z.of_nat (length records))) as Hn
    by by rewrite Hjp.
  split.
  - intros [html (doc & Hdoc & _)%generate_Ok_elems].
    destruct (generate_elems_cards self _ doc Hn Hdoc)
      as (blocks & _ & Hcards & _).
    apply mapM_result_Ok in Hcards.
    apply Forall_lookup. intros i tweet Hi.
    assert (seqZ 0 (Z.of_nat (length records)) !! i = Some (Z.of_nat i))
      as Hindex.
    { apply lookup_seqZ. apply lookup_lt_Some in Hi. lia. }
    destruct (Forall2_lookup_l _ _ _ _ _ Hcards Hindex) as (card & _ & Hcard).
    rewrite (card_at_list self records i tweet Hjp Hi) in Hcard.
    apply (render_tweet_renderable (Z.of_nat i)). eauto.
  - intros Hrecords.
    destruct (generate_elems_total py_repr timestamp_parser self _ Hn)
      as [doc Hdoc].
    + intros index Hindex.
      destruct (records !! Z.to_nat index) as [tweet|] eqn:Hi.
      2: { apply lookup_ge_None in Hi. lia. }
      rewrite Forall_lookup in Hrecords. specialize (Hrecords _ _ Hi).
      destruct (proj2 (render_tweet_renderable index tweet) Hrecords)
        as [card Hcard].
      exists card. rewrite <- Hcard.
      rewrite <- (Z2Nat.id index) at 1 2 by lia.
      by apply (card_at_list self records).
    + exists (render_html doc). unfold generate. by rewrite Hdoc.
Qed.

(** The first record, in list order, whose card raises ends the call. *)
Lemma generate_Raise_first self records e :
  json_path self = PList records ->
  generate self = Raise e <->
  exists (i : nat) tweet,
    records !! i = Some tweet
    /\ (forall (j : nat) t, (j < i)%nat -> records !! j = Some t -> renderable t)
    /\ out (render_tweet (Z.of_nat i) tweet) = Raise e.
Proof.
  intros Hjp. set (n := Z.of_nat (length records)).
  assert (py_len (json_path self) = Ok n) as Hn by by rewrite Hjp.
  rewrite generate_Raise_elems, (generate_elems_Raise _ _ self n e Hn).
  rewrite mapM_result_Raise. split.
  - intros (l1 & x & l2 & ys & Hsplit & Hl1 & Hx).
    assert (forall (j : nat) y, (l1 ++ x :: l2) !! j = Some y ->
              y = Z.of_nat j /\ Z.of_nat j < n) as Hseq.
    { intros j y. rewrite <- Hsplit, lookup_seqZ. lia. }
    destruct (Hseq (length l1) x) as [-> Hlt].
    { by rewrite list_lookup_middle. }
    destruct (records !! length l1) as [tweet|] eqn:Hi.
    2: { apply lookup_ge_None in Hi. lia. }
    exists (length l1), tweet. split; [done|]. split.
    + intros j t Hj Ht. apply mapM_result_Ok in Hl1.
      destruct (lookup_lt_is_Some_2 l1 j Hj) as [y Hy].
      destruct (Hseq j y) as [-> _]; [by rewrite lookup_app_l, Hy|].
      destruct (Forall2_lookup_l _ _ _ _ _ Hl1 Hy) as (card & _ & Hcard).
      rewrite (card_at_list self records j t Hjp Ht) in Hcard.
      apply (render_tweet_renderable (Z.of_nat j)). eauto.
    + by rewrite <- (card_at_list self records _ tweet Hjp Hi).
  - intros (i & tweet & Hi & Hbefore & Hraise).
    assert (Z.of_nat i < n) as Hlt by (apply lookup_lt_Some in Hi; lia).
    destruct (mapM_result_Ok_total (card_at self) (seqZ 0 (Z.of_nat i)))
      as [ys Hys].
    { intros index [Hlo Hhi]%elem_of_seqZ.
      destruct (records !! Z.to_nat index) as [t|] eqn:Ht.
      2: { apply lookup_ge_None in Ht. lia. }
      destruct (proj2 (render_tweet_renderable index t)) as [card Hcard].
      { apply (Hbefore (Z.to_nat index)); [lia|done]. }
      exists card. rewrite <- Hcard.
      rewrite <- (Z2Nat.id index) at 1 2 by lia.
      by apply (card_at_list self records). }
    exists (seqZ 0 (Z.of_nat i)), (Z.of_nat i),
      (seqZ (Z.of_nat i + 1) (n - Z.of_nat i - 1)), ys.
    split; [|split; [done|]].
    + replace n with (Z.of_nat i + (1 + (n - Z.of_nat i - 1))) at 1 by lia.
      rewrite seqZ_app by lia. f_equal.
      rewrite (seqZ_cons (0 + Z.of_nat i)) by lia. f_equal. f_equal; lia.
    + by rewrite (card_at_list self records i tweet Hjp Hi).
Qed.

(** X2. When [generate] raises on a list, the exception is that of
    the first record, in list order, that cannot be rendered; and
    whenever the records before some record can be rendered and the
    card of that record raises, [generate] raises the same. *)
Theorem generate_raises_iff self records e :
  json_path self = PList records ->
  generate self = Raise e <->
  exists (i : nat) tweet,
    records !! i = Some tweet
    /\ (forall (j : nat) t, (j < i)%nat -> records !! j = Some t -> renderable t)
    /\ out (render_tweet (Z.of_nat i) tweet) = Raise e.
Proof. apply generate_Raise_first. Qed.

Lemma render_tweet_card_exception index tweet e :
  out (render_tweet index tweet) = Raise e -> card_exception tweet e.
Proof.
  intros Hraise. destruct tweet as [| | | | | |d]; simpl;
    try (by eapply render_tweet_not_dict; [|exact Hraise]).
  by apply (render_tweet_raise py_repr timestamp_parser index).
Qed.

(** X3. The exceptions of [generate] on a list: [TypeError] for a
    record that is no dict, the [KeyError] of a field that a record
    lacks, or what the timestamp helper raises on the timestamp of a
    record. Taking the records out of the list never raises: an
    [IndexError] can only come from the helper. *)
Theorem generate_exceptions self records e :
  json_path self = PList records ->
  generate self = Raise e ->
  (exists tweet, tweet ∈ records /\ card_exception tweet e)
  /\ (e = IndexError -> exists v, timestamp_parser v = Raise IndexError).
Proof.
  intros Hjp (i & tweet & Hi & _ & Hraise)%(generate_Raise_first _ records);
    [|done].
  apply render_tweet_card_exception in Hraise.
  split.
  - exists tweet. split; [|done]. by eapply list_elem_of_lookup_2.
  - intros ->. destruct tweet as [| | | | | |d]; try done.
    destruct Hraise as [(key & _ & _ & [=])|(v & _ & Hv)]. eauto.
Qed.

(** X4. When the loaded JSON is no array. A number, a boolean or
    [null] has no length: [TypeError]. An object with members has no
    member 0: [KeyError]. A string with characters gives its first
    character as a record, which cannot be subscripted by a field
    name: [TypeError]. The empty object and the empty string are
    rendered as the empty array is. *)
Theorem generate_not_an_array self :
  let empty := {| username := username self; json_path := PList [];
                  html_file_path := html_file_path self |} in
  match json_path self with
  | PList _ => True
  | PDict [] | PStr [] => generate self = generate empty
  | PDict (_ :: _) => generate self = Raise (KeyError (PInt 0))
  | PStr (_ :: _) | PNone | PBool _ | PInt _ | PFloat _ =>
      generate self = Raise TypeError
  end.
Proof.
  intros empty.
  assert (forall n e, py_len (json_path self) = Ok n -> 0 < n ->
            card_at self 0 = Raise e -> generate self = Raise e) as Hfirst.
  { intros n e Hn Hpos Hcard.
    apply generate_Raise_elems, (generate_elems_Raise _ _ self n e Hn).
    rewrite seqZ_cons, mapM_result_cons, Hcard by done. done. }
  assert (py_len (json_path self) = Ok 0 -> generate self = generate empty)
    as Hempty.
  { intros Hn. unfold generate. f_equal.
    rewrite !generate_elems_eq, Hn. reflexivity. }
  destruct self as [u jp path]. simpl in *.
  destruct jp as [| | | |[|c s]|l|[|[k v] d]]; try done.
  all: try (by apply Hempty).
  all: try (apply generate_Raise_elems; rewrite generate_elems_eq;
            reflexivity).
  - apply (Hfirst (Z.of_nat (length (c :: s)))); [done|simpl; lia|done].
  - apply (Hfirst (Z.of_nat (length ((k, v) :: d)))); [done|simpl; lia|done].
Qed.

(** Counting the pieces that satisfy a test, in a document whose cards
    hold one such piece each. *)
Lemma count_in_document (P : elem -> bool) self n doc :
  (forall index d parsed,
     length (filter (fun e => P e = true) (card_elems py_repr index d parsed))
     = 1%nat) ->
  (forall e, P e = true -> e = TweetOpen \/ e = TweetClose) ->
  py_len (json_path self) = Ok n ->
  generate_elems self = Ok doc ->
  length (filter (fun e => P e = true) doc) = Z.to_nat n.
Proof.
  intros Hcard Honly Hn Hdoc.
  destruct (generate_elems_cards self n doc Hn Hdoc)
    as (blocks & Hblocks & Hcards & ->).
  assert (forall l, Forall (fun e => e <> TweetOpen /\ e <> TweetClose) l ->
            filter (fun e => P e = true) l = []) as Hnone.
  { intros l Hl. induction Hl as [|e l [He1 He2] _ IH]; [done|].
    rewrite filter_cons, IH. destruct (decide (P e = true)) as [HP|]; [|done].
    by destruct (Honly e HP). }
  assert (length (filter (fun e => P e = true)
                    (concat (zip_with page_elems (seqZ 1 (total_pages n)) blocks)))
          = length (concat blocks)) as Hpages.
  { clear Hcards Hdoc.
    induction Hblocks as [|page cards pages blocks Hcards _ IH]; [done|].
    cbn [zip_with]. rewrite !concat_cons, filter_app, !length_app, IH.
    f_equal. unfold page_elems.
    rewrite !filter_app, !length_app.
    rewrite (Hnone [PageOpen page; ContainerOpen]), (Hnone [PageClose])
      by (repeat constructor; done).
    simpl. rewrite Nat.add_0_r.
    clear IH. induction Hcards as [|index card indices cards Hat _ IH];
      [done|].
    apply card_at_inv in Hat as (d & parsed & ->).
    rewrite concat_cons, filter_app, length_app, Hcard, IH. done. }
  apply mapM_result_Ok, Forall2_length in Hcards.
  rewrite length_seqZ in Hcards.
  unfold document_elems. rewrite !filter_app, !length_app, Hpages.
  rewrite (Hnone (prologue _)), (Hnone (epilogue _)); [simpl; lia| |].
  - unfold epilogue. rewrite !Forall_app. split; [by repeat constructor|].
    split; [|by repeat constructor].
    apply Forall_fmap, Forall_true. done.
  - unfold prologue, head_before_title, style_sheet, doctype, body_open.
    rewrite Forall_cons, !Forall_app. split; [done|].
    split; [apply Forall_fmap, Forall_true; done|].
    split; [by repeat constructor|].
    split; [apply Forall_fmap, Forall_true; done|by repeat constructor].
Qed.

(** X5. A returned document has exactly one card for each record:
    as many pieces open a card as there are records, and as many
    close one. *)
Theorem generate_one_card_per_record self records doc :
  json_path self = PList records ->
  generate_elems self = Ok doc ->
  tweet_cards doc = length records
  /\ closed_tweet_cards doc = length records.
Proof.
  intros Hjp Hdoc.
  assert (py_len (json_path self) = Ok (Z.of_nat (length records))) as Hn
    by by rewrite Hjp.
  unfold tweet_cards, closed_tweet_cards.
  rewrite (count_in_document is_tweet_open self
             (Z.of_nat (length records)) doc),
          (count_in_document is_tweet_close self
             (Z.of_nat (length records)) doc); try done.
  - lia.
  - intros index d parsed. unfold card_elems. by destruct (py_truthy _).
  - intros e. destruct e; try done. by right.
  - intros index d parsed. unfold card_elems. by destruct (py_truthy _).
  - intros e. destruct e; try done. by left.
Qed.

(** X6. No page of the document is empty and none holds more than 24
    records; every page but the last holds exactly 24, and the last
    one holds the rest. *)
Theorem page_sizes self records page :
  json_path self = PList records ->
  let n := Z.of_nat (length records) in
  1 <= page <= total_pages n ->
  exists tweets,
    page_tweets self page = Ok tweets
    /\ 1 <= Z.of_nat (length tweets) <= 24
    /\ (page < total_pages n -> Z.of_nat (length tweets) = 24)
    /\ (page = total_pages n ->
        Z.of_nat (length tweets) = n - 24 * (total_pages n - 1)).
Proof.
  intros Hjp n Hpage.
  assert (0 <= n) as Hn by lia.
  destruct (page_bounds page n Hn Hpage) as [Hlo Hhi].
  exists (records_between records (page_lo page) (page_hi page n)).
  split.
  - unfold page_tweets. rewrite Hjp. simpl. fold n.
    rewrite page_range_positions.
    apply (mapM_seq_index_positions records); [lia|done].
  - unfold records_between. rewrite length_take, length_drop.
    pose proof (total_pages_ceil n) as Hceil.
    unfold is_ceil_div, page_lo, page_hi in *. lia.
Qed.


(** X10. The user name is copied as it is into the title and into the
    heading of every returned document, the title first. *)
Theorem generate_username_verbatim self html :
  generate self = Ok html ->
  exists before between after,
    html = before ++ title_text (username self) ++ between
           ++ heading_text (username self) ++ after.
Proof.
  intros (doc & Hdoc & ->)%generate_Ok_elems.
  apply generate_elems_inv in Hdoc as (n & pages & _ & _ & ->).
  exists (render_html (doctype :: head_before_title)),
         (render_html (style_sheet ++ [body_open])),
         (render_html (LoadingFirstPage
                       :: concat pages ++ epilogue (total_pages n))).
  assert (title_text (username self) = render_html [Title (username self)])
    as -> by (unfold render_html; cbn [fmap list_fmap concat];
              by rewrite app_nil_r).
  assert (heading_text (username self)
          = render_html [Heading (username self)])
    as -> by (unfold render_html; cbn [fmap list_fmap concat];
              by rewrite app_nil_r).
  by rewrite <- !render_html_app.
Qed.

(** The card of each record occurs in the returned document. *)
Lemma generate_card_occurs self records doc (i : nat) tweet :
  json_path self = PList records ->
  generate_elems self = Ok doc ->
  records !! i = Some tweet ->
  exists card,
    out (render_tweet (Z.of_nat i) tweet) = Ok card /\ occurs_in card doc.
Proof.
  intros Hjp Hdoc Hi.
  assert (py_len (json_path self) = Ok (Z.of_nat (length records))) as Hn
    by by rewrite Hjp.
  destruct (generate_elems_cards self _ doc Hn Hdoc)
    as (blocks & Hblocks & Hcards & ->).
  apply mapM_result_Ok in Hcards.
  assert (seqZ 0 (Z.of_nat (length records)) !! i = Some (Z.of_nat i)) as Hpos.
  { apply lookup_lt_Some in Hi. rewrite lookup_seqZ. split; lia. }
  destruct (Forall2_lookup_l _ _ _ _ _ Hcards Hpos) as (card & Hcard & Hat).
  rewrite (card_at_list self records i tweet Hjp Hi) in Hat.
  exists card. split; [done|].
  apply list_elem_of_lookup_2, list_elem_of_In, in_concat in Hcard
    as (block & Hblock & Hin).
  apply list_elem_of_In in Hblock, Hin.
  apply list_elem_of_lookup in Hblock as [k Hk].
  destruct (Forall2_lookup_r _ _ _ _ _ Hblocks Hk) as (page & Hpage & _).
  unfold document_elems.
  apply occurs_in_app_l, occurs_in_app_r.
  apply (occurs_in_trans _ (page_elems page block)).
  - unfold page_elems.
    by apply occurs_in_app_l, occurs_in_app_r, occurs_in_concat.
  - apply occurs_in_concat, list_elem_of_lookup. exists k.
    apply lookup_zip_with_Some. eauto.
Qed.

(** X11. The text of a record is copied into the document as it is,
    without escaping: when [available_tweet_text] is a non-empty
    string, the returned document holds the paragraph of line 154
    around exactly that string. *)
Theorem generate_text_verbatim self records html (i : nat) d text :
  json_path self = PList records ->
  records !! i = Some (PDict d) ->
  dict_get d (lit "available_tweet_text") = Some (PStr text) ->
  text <> [] ->
  generate self = Ok html ->
  occurs_in (available_text_paragraph text) html.
Proof.
  intros Hjp Hi Htext Hne (doc & Hdoc & ->)%generate_Ok_elems.
  destruct (generate_card_occurs self records doc i _ Hjp Hdoc Hi)
    as (card & Hcard & Hoccurs).
  apply render_tweet_inv in Hcard as (d' & parsed & [= <-] & _ & _ & ->).
  apply (occurs_in_trans _ (render_html [AvailableText text])).
  { unfold render_html. simpl. rewrite app_nil_r. apply occurs_in_refl. }
  apply occurs_in_render_html.
  apply (occurs_in_trans _ (card_elems py_repr (Z.of_nat i) d parsed));
    [|done].
  unfold card_elems, tweet_get. rewrite Htext. simpl.
  rewrite bool_decide_eq_false_2 by done.
  cbn [negb]. unfold plain_text_block, tweet_get. rewrite Htext.
  exists [TweetOpen; Br],
    ([ AvailableIsRT (py_format py_repr (tweet_get d "available_tweet_is_RT"));
       AvailableInfo (py_format py_repr (tweet_get d "available_tweet_info")) ]
     ++ common_block py_repr d parsed).
  reflexivity.
Qed.

Lemma expected_fields_split d :
  expected_fields d = fields_before_helper d ++ fields_after_helper.
Proof.
  unfold expected_fields, fields_before_helper, fields_after_helper.
  rewrite <- app_comm_cons, <- app_assoc. by rewrite take_drop.
Qed.

(** The lookups of a card in reading order, for a proof by cases. *)
Ltac read_field key rest :=
  destruct (dict_get _ (lit key)) eqn:?; simpl; [rest|].

Ltac read_truthy rest_true rest_false :=
  idtac;
  match goal with
  | |- context [py_truthy ?text] =>
      destruct (py_truthy text) eqn:?; simpl; [rest_true|rest_false]
  end.

Ltac call_helper rest :=
  idtac;
  match goal with
  | |- context [timestamp_parser ?v] =>
      destruct (timestamp_parser v) eqn:?; simpl; [rest|]
  end.

Ltac read_common :=
  read_field "archived_tweet_url"%string ltac:(
  read_field "parsed_archived_tweet_url"%string ltac:(
  read_field "original_tweet_url"%string ltac:(
  read_field "parsed_tweet_url"%string ltac:(
  read_field "archived_urlkey"%string ltac:(
  read_field "archived_timestamp"%string ltac:(
  call_helper ltac:(
  read_field "archived_mimetype"%string ltac:(
  read_field "archived_statuscode"%string ltac:(
  read_field "archived_digest"%string ltac:(
  read_field "archived_length"%string ltac:(idtac))))))))))).

Ltac read_fields :=
  read_field "available_tweet_text"%string ltac:(
  read_truthy
    ltac:(read_field "available_tweet_is_RT"%string ltac:(
          read_field "available_tweet_info"%string ltac:(read_common)))
    ltac:(read_common)).

(** X19. Of the reasons a record has to fail, the first in reading
    order decides the exception: the [KeyError] of the first field it
    lacks among those read before the timestamp helper is called;
    else what the helper raises; else the [KeyError] of the first
    field it lacks among the four read after the helper. *)
Theorem render_tweet_first_exception index d e :
  out (render_tweet index (PDict d)) = Raise e
  <-> first_exception timestamp_parser d = Some e.
Proof.
  unfold out, render_tweet, render_link, render_text, field,
    getitem_str, mbind, M_bind; simpl.
  unfold first_exception, fields_before_helper, fields_after_helper,
    plain_text_fields, common_fields, lacks, tweet_get.
  cbn [take drop app find].
  read_fields; cbn [find fmap option_fmap option_map default];
    split; intros Heq; inversion Heq; subst; reflexivity.
Qed.






Lemma page_containers_document self doc n :
  py_len (json_path self) = Ok n ->
  generate_elems self = Ok doc ->
  page_containers doc = seqZ 1 (total_pages n)
  /\ pagination_links doc = seqZ 1 (total_pages n).
Proof.
  intros Hn (n' & pages & Hn' & Hpages & ->)%generate_elems_inv.
  assert (n' = n) as -> by congruence.
  apply page_containers_pages in Hpages as [Hc Hl].
  unfold document_elems.
  rewrite !page_containers_app, !pagination_links_app, Hc, Hl.
  rewrite page_containers_epilogue, pagination_links_epilogue.
  assert (page_containers (prologue (username self)) = []) as -> by done.
  assert (pagination_links (prologue (username self)) = []) as -> by done.
  unfold py_range. replace (total_pages n + 1 - 1) with (total_pages n) by lia.
  by rewrite app_nil_r.
Qed.

Lemma elem_of_page_containers doc page :
  page ∈ page_containers doc <-> PageOpen page ∈ doc.
Proof.
  unfold page_containers. rewrite list_elem_of_omap. split.
  - intros (e & He & Hpage). destruct e; try done. by injection Hpage as ->.
  - intros He. by exists (PageOpen page).
Qed.

Lemma elem_of_pagination_links doc page :
  page ∈ pagination_links doc <-> PageLink page ∈ doc.
Proof.
  unfold pagination_links. rewrite list_elem_of_omap. split.
  - intros (e & He & Hpage). destruct e; try done. by injection Hpage as ->.
  - intros He. by exists (PageLink page).
Qed.


(** ** The text of the document *)

(** An element that carries an [id] is written as the source has it,
    with the [id] in its [id] attribute. *)
Lemma render_id_element e src :
  elem_id_source e = Some src -> render e = id_element_text src.
Proof. destruct e; intros [= <-]; reflexivity. Qed.



Lemma render_pages_text pages blocks :
  length pages = length blocks ->
  render_html (concat (zip_with page_elems pages blocks))
  = concat (zip_with page_text pages
              ((fun cards => render_html (concat cards)) <$> blocks)).
Proof.
  revert blocks. induction pages as [|page pages IH];
    intros [|cards blocks]; try done.
  intros [= Hlen]. cbn [zip_with fmap list_fmap concat].
  rewrite render_html_app, (IH blocks Hlen). f_equal.
  unfold page_elems, page_text.
  rewrite !render_html_app. cbn [app]. rewrite !render_html_cons.
  unfold render_html at 3. cbn [fmap list_fmap concat].
  by rewrite app_nil_r, <- !app_assoc.
Qed.

(** The text of a returned document: the head, the pages around the
    text of their cards, the pagination block, and the rest. *)
Lemma generate_text self html :
  generate self = Ok html ->
  exists n doc blocks,
    py_len (json_path self) = Ok n
    /\ generate_elems self = Ok doc
    /\ html = render_html doc
    /\ doc = document_elems (username self) (total_pages n)
               (zip_with page_elems (seqZ 1 (total_pages n)) blocks)
    /\ Forall2 (fun page cards =>
                  Forall2 (fun index card => card_at self index = Ok card)
                    (positions (page_lo page) (page_hi page n)) cards)
         (seqZ 1 (total_pages n)) blocks
    /\ Forall2 (fun index card => card_at self index = Ok card)
         (seqZ 0 n) (concat blocks)
    /\ html = render_html (prologue (username self))
              ++ concat (zip_with page_text (seqZ 1 (total_pages n))
                           ((fun cards => render_html (concat cards))
                            <$> blocks))
              ++ render_html [Br; PaginationOpen]
              ++ concat (page_link_text <$> seqZ 1 (total_pages n))
              ++ render_html [ PaginationClose; Attribution;
                               PaginationScript (total_pages n);
                               Markup (lit "</body>\n");
                               Markup (lit "</html>") ].
Proof.
  intros (doc & Hdoc & ->)%generate_Ok_elems.
  destruct (generate_elems_inv _ _ _ _ Hdoc) as (n & _ & Hn & _).
  destruct (generate_elems_cards self n doc Hn Hdoc)
    as (blocks & Hblocks & Hcards & Heq).
  exists n, doc, blocks. repeat split; try done.
  - by apply mapM_result_Ok.
  - rewrite Heq at 1. unfold document_elems, epilogue.
    replace (py_range 1 (total_pages n + 1)) with (seqZ 1 (total_pages n))
      by (unfold py_range; f_equal; lia).
    rewrite !render_html_app, render_pages_text
      by by apply Forall2_length in Hblocks.
    do 3 f_equal. unfold render_html at 1. by rewrite <- list_fmap_compose.
Qed.

(** The texts of a page and of the pagination block, spelled out. *)
Ltac spell_out_text :=
  repeat match goal with
  | |- context [zip_with page_text ?pages ?bodies] =>
      rewrite (zip_with_ext page_text page_container_text
                 pages pages bodies bodies)
        by (reflexivity || (intros; reflexivity))
  | |- context [page_link_text <$> ?pages] =>
      change (page_link_text <$> pages)
        with ((fun page => id_element_text (FromPageLink page)) <$> pages)
  end.

(** C3. The document [generate] returns has exactly [total_pages] page
    containers, those of the pages 1 to [total_pages] in this order,
    and exactly [total_pages] pagination links, numbered 1 to
    [total_pages] in this order. Its text is the head, then for each
    page from 1 to [total_pages] the hidden [div] with the [id] of the
    page around the cards of the records of the page, then the
    pagination block with one link for each page, then the rest. *)
Theorem generate_page_containers_and_links self html :
  generate self = Ok html ->
  exists n doc blocks,
    py_len (json_path self) = Ok n
    /\ generate_elems self = Ok doc
    /\ page_containers doc = seqZ 1 (total_pages n)
    /\ pagination_links doc = seqZ 1 (total_pages n)
    /\ length blocks = Z.to_nat (total_pages n)
    /\ Forall2 (fun page cards =>
                  Forall2 (fun index card => card_at self index = Ok card)
                    (positions (page_lo page) (page_hi page n)) cards)
         (seqZ 1 (total_pages n)) blocks
    /\ html = render_html (prologue (username self))
              ++ concat (zip_with page_container_text
                           (seqZ 1 (total_pages n))
                           ((fun cards => render_html (concat cards))
                            <$> blocks))
              ++ pagination_text (total_pages n)
              ++ render_html [ Attribution; PaginationScript (total_pages n);
                               Markup (lit "</body>\n");
                               Markup (lit "</html>") ].
Proof.
  intros (n & doc & blocks & Hn & Hdoc & _ & _ & Hblocks & _ & Htext)
    %generate_text.
  destruct (page_containers_document self doc n Hn Hdoc) as [Hc Hl].
  exists n, doc, blocks. repeat split; try done.
  - rewrite <- (Forall2_length _ _ _ Hblocks). apply length_seqZ.
  - rewrite Htext. spell_out_text. do 2 f_equal.
    unfold pagination_text, render_html.
    cbn [fmap list_fmap concat app]. rewrite <- !app_assoc. reflexivity.
Qed.



(** X9. The loop of the script runs up to [total_pages]. With at
    least one record the document holds the container and the link of
    page 1, which the script addresses when the document loads; with
    no record the loading notice is followed at once by a pagination
    block without a link: the elements the script looks up are not
    written. *)
Theorem generate_first_page self html n :
  py_len (json_path self) = Ok n ->
  generate self = Ok html ->
  occurs_in (script_loop_text (total_pages n)) html
  /\ (0 < n ->
      occurs_in (id_element_text (FromPage 1)) html
      /\ occurs_in (id_element_text (FromPageLink 1)) html)
  /\ (n = 0 ->
      exists rest,
        html = render_html (prologue (username self))
               ++ lit "<br>\n" ++ lit "<div class=$pagination$>\n"
               ++ lit "</div>\n" ++ rest).
Proof.
  intros Hn (n' & doc & blocks & Hn' & _ & _ & _ & Hblocks & _ & ->)
    %generate_text.
  assert (n' = n) as -> by congruence.
  pose proof (py_len_nonneg _ _ Hn) as Hnonneg.
  pose proof (total_pages_ceil n) as Hceil. unfold is_ceil_div in Hceil.
  spell_out_text.
  split; [|split].
  - do 4 apply occurs_in_app_l.
    unfold render_html. cbn [fmap list_fmap concat].
    do 2 apply occurs_in_app_l. apply occurs_in_app_r.
    unfold script_loop_text, render. do 3 apply occurs_in_app_l.
    rewrite (app_assoc (str_int _)), (app_assoc (lit _) (_ ++ _)).
    apply occurs_in_app_r, occurs_in_refl.
  - intros Hpos.
    assert (exists t, total_pages n = 1 + Z.of_nat t) as [t Ht].
    { exists (Z.to_nat (total_pages n - 1)). lia. }
    rewrite Ht.
    replace (1 + Z.of_nat t) with (Z.succ (Z.of_nat t)) in * by lia.
    rewrite <- Nat2Z.inj_succ, !seqZ_cons by lia.
    rewrite Ht in Hblocks.
    replace (1 + Z.of_nat t) with (Z.succ (Z.of_nat t)) in Hblocks by lia.
    rewrite <- Nat2Z.inj_succ, seqZ_cons in Hblocks by lia.
    destruct blocks as [|cards blocks]; [by inversion Hblocks|].
    cbn [fmap list_fmap zip_with concat]. split.
    + apply occurs_in_app_l, occurs_in_app_r, occurs_in_app_r.
      unfold page_container_text. apply occurs_in_app_r, occurs_in_refl.
    + do 3 apply occurs_in_app_l. apply occurs_in_app_r.
      cbn [fmap list_fmap concat].
      apply occurs_in_app_r, occurs_in_refl.
  - intros ->. assert (total_pages 0 = 0) as -> by reflexivity.
    inversion Hblocks; subst. eexists.
    cbn [seqZ fmap list_fmap zip_with concat app]. unfold render_html.
    cbn [fmap list_fmap concat app]. rewrite <- !app_assoc. reflexivity.
Qed.

End Coverage.

(** * What [generate] depends on *)

Lemma seq_index_elem_of {A} (l : list A) index x :
  seq_index l index = Ok x -> x ∈ l.
Proof.
  unfold seq_index. destruct (_ <? 0); [done|].
  destruct (l !! _) as [y|] eqn:Hy; [|done].
  intros [= <-]. by eapply list_elem_of_lookup_2.
Qed.

(** The timestamp helper is called on the [archived_timestamp] of the
    record, and on nothing else. *)
Lemma render_tweet_helper py_repr tp1 tp2 index tweet :
  (forall d v,
     tweet = PDict d -> dict_get d (lit "archived_timestamp") = Some v ->
     tp1 v = tp2 v) ->
  out (render_tweet py_repr tp1 index tweet)
  = out (render_tweet py_repr tp2 index tweet).
Proof.
  intros Hhelper. destruct tweet as [| | | | | |d]; try reflexivity.
  unfold out, render_tweet, render_link, render_text, field,
    getitem_str, mbind, M_bind; simpl.
  destruct (dict_get d (lit "archived_timestamp")) as [v|] eqn:Hv; simpl.
  - repeat first
      [ reflexivity
      | rewrite (Hhelper d v eq_refl Hv); reflexivity
      | match goal with
        | |- context [dict_get d (lit ?key)] =>
            destruct (dict_get d (lit key)); simpl
        | |- context [py_truthy ?text] =>
            destruct (py_truthy text); simpl
        end ].
  - repeat first
      [ reflexivity
      | match goal with
        | |- context [dict_get d (lit ?key)] =>
            destruct (dict_get d (lit key)); simpl
        | |- context [py_truthy ?text] =>
            destruct (py_truthy text); simpl
        end ].
Qed.

Lemma card_at_helper py_repr tp1 tp2 self index :
  (forall records d v,
     json_path self = PList records -> PDict d ∈ records ->
     dict_get d (lit "archived_timestamp") = Some v ->
     tp1 v = tp2 v) ->
  card_at py_repr tp1 self index = card_at py_repr tp2 self index.
Proof.
  intros Hhelper. unfold card_at.
  destruct (getitem_int (json_path self) index) as [tweet|] eqn:Hget;
    [|done].
  cbn [mbind result_bind]. apply render_tweet_helper.
  intros d v -> Hv. unfold getitem_int in Hget.
  destruct (json_path self) as [| | | |s|records|items] eqn:Hjp;
    try discriminate.
  - by destruct (seq_index s index).
  - apply (Hhelper records d v eq_refl); [|done].
    by apply (seq_index_elem_of records index).
Qed.

(** C8. The result of [generate] is determined by the username and
    the loaded records. Two calls on builders that agree on them,
    whatever their output paths, return the same string or raise the
    same exception. The only other thing [generate] consults is the
    timestamp helper, on the [archived_timestamp] of the records: the
    two calls agree even when the helper behaves differently from one
    call to the other, as long as it answers the same on these. *)
Theorem generate_depends_on_username_and_records py_repr tp1 tp2 self1 self2 :
  username self1 = username self2 ->
  json_path self1 = json_path self2 ->
  (forall records d v,
     json_path self1 = PList records -> PDict d ∈ records ->
     dict_get d (lit "archived_timestamp") = Some v ->
     tp1 v = tp2 v) ->
  generate py_repr tp1 self1 = generate py_repr tp2 self2.
Proof.
  intros Hu Hj Hhelper. unfold generate. f_equal.
  rewrite !generate_elems_eq, <- Hu, <- Hj.
  destruct (py_len (json_path self1)) as [n|]; [|done].
  cbn [mbind result_bind].
  rewrite (mapM_result_ext
             (fun page => out (render_page py_repr tp1 self1 page))
             (fun page => out (render_page py_repr tp2 self2 page)));
    [done|].
  intros page _. rewrite !out_render_page, <- Hj.
  destruct (py_len (json_path self1)) as [n'|]; [|done].
  cbn [mbind result_bind].
  rewrite (mapM_result_ext (card_at py_repr tp1 self1)
             (card_at py_repr tp2 self2)); [done|].
  intros index _. rewrite (card_at_helper py_repr tp1 tp2 self1 index Hhelper).
  unfold card_at. by rewrite Hj.
Qed.

(** The helper matters: with a helper that answers otherwise on the
    timestamp of a record, [generate] returns another string. *)
Example generate_depends_on_helper :
  generate sample_repr sample_timestamp_parser
    (sample_visualizer sample_records)
  <> generate sample_repr (fun _ => Ok (PStr (lit "1 January 2020")))
       (sample_visualizer sample_records).
Proof. vm_compute. intros [=]. Qed.

(** * Files *)

Lemma utf8_encode_Raise s e :
  utf8_encode s = Raise e -> e = UnicodeEncodeError.
Proof.
  unfold utf8_encode. rewrite fmap_result_Raise, mapM_result_Raise.
  intros (_ & c & _ & _ & _ & _ & Hc). revert Hc. unfold utf8_encode_char.
  repeat case_match; congruence.
Qed.

Lemma utf8_decode_Raise bs e :
  utf8_decode bs = Raise e -> e = UnicodeDecodeError.
Proof.
  remember (length bs) as n eqn:Hn. revert bs Hn e.
  induction n as [n IH] using lt_wf_ind. intros bs -> e.
  destruct bs as [|b0 bs]; [done|]. cbn [utf8_decode].
  repeat case_match; subst;
    try (intros [= <-]; reflexivity);
    rewrite fmap_result_Raise;
    (eapply IH; [|reflexivity]); simpl; lia.
Qed.

Lemma node_at_set_node fs path n p :
  node_at (set_node fs path n) p
  = if decide (locate fs p = locate fs path) then Some n else node_at fs p.
Proof.
  unfold node_at, set_node. simpl.
  destruct (decide _) as [->|Hne]; [by rewrite lookup_insert_eq|].
  rewrite lookup_insert_ne; [done|congruence].
Qed.

Lemma node_at_set_node_eq fs path n :
  node_at (set_node fs path n) path = Some n.
Proof. rewrite node_at_set_node. by destruct (decide _). Qed.

Lemma set_node_set_node fs path n1 n2 :
  set_node (set_node fs path n1) path n2 = set_node fs path n2.
Proof. unfold set_node. simpl. by rewrite insert_insert_eq. Qed.

Lemma set_content_set_node fs path readable writable content bytes :
  set_content (set_node fs path (RegularFile readable writable content))
    path bytes
  = set_node fs path (RegularFile readable writable bytes).
Proof.
  unfold set_content. rewrite node_at_set_node_eq.
  apply set_node_set_node.
Qed.

(** What [open] for writing does when it returns: the file is new, or
    it was there and could be written, and it is empty afterwards; or
    the path leads to a sink, and nothing changes. *)
Lemma open_for_writing_inv fs path fs' :
  open_for_writing fs path = Ok fs' ->
  (exists readable writable,
     fs' = set_node fs path (RegularFile readable writable [])
     /\ (node_at fs path = None
         /\ readable = (created_mode fs).1 /\ writable = (created_mode fs).2
         \/ exists content,
              writable = true
              /\ node_at fs path
                 = Some (RegularFile readable writable content)))
  \/ (fs' = fs /\ node_at fs path = Some (Sink true)).
Proof.
  unfold open_for_writing.
  destruct (node_at fs path) as [[|readable writable content|writable]|];
    [done| | |].
  - destruct writable; [|done]. intros [= <-]. left.
    exists readable, true. eauto.
  - destruct writable; [|done]. intros [= <-]. by right.
  - destruct (may_create fs path); [|done]. intros [= <-]. left.
    eexists _, _. eauto.
Qed.

Lemma set_content_sink fs path writable bytes :
  node_at fs path = Some (Sink writable) -> set_content fs path bytes = fs.
Proof. unfold set_content. by intros ->. Qed.

(** A file system changes at most under one name. *)
Lemma changes_only_refl name fs : changes_only name fs fs.
Proof.
  repeat split; try done.
  destruct (nodes fs !! name) as [[| |]|]; eauto.
Qed.

Lemma changes_only_set_node fs path readable writable content :
  (node_at fs path = None
   /\ readable = (created_mode fs).1 /\ writable = (created_mode fs).2
   \/ exists content',
        node_at fs path = Some (RegularFile readable writable content')) ->
  changes_only (locate fs path) fs
    (set_node fs path (RegularFile readable writable content)).
Proof.
  intros Hnode. repeat split; try done.
  - intros other Hother. simpl. by rewrite lookup_insert_ne.
  - simpl. rewrite lookup_insert_eq. unfold node_at in Hnode.
    destruct Hnode as [(-> & -> & ->)|[content' ->]]; eauto.
Qed.

Section Files.
Variable linesep : pystr.

Abbreviation save := (save linesep).

(** The ways a call of [save] with a path ends: [open] raises, or the
    string cannot be encoded, or its bytes are handed to the file. *)
Lemma save_cases self path s fs :
  html_file_path self = Some path ->
  (exists e, open_for_writing fs path = Raise e
             /\ save self s fs = (Raise e, fs))
  \/ exists fs',
       open_for_writing fs path = Ok fs'
       /\ ((~ encodable (translate_on_write linesep s)
            /\ save self s fs = (Raise UnicodeEncodeError, fs'))
           \/ exists bytes,
                utf8_encode (translate_on_write linesep s) = Ok bytes
                /\ save self s fs = write_bytes fs' path bytes).
Proof.
  intros Hpath. unfold save. rewrite Hpath.
  destruct (open_for_writing fs path) as [fs'|e] eqn:Hopen; [|left; eauto].
  right. exists fs'. split; [done|].
  destruct (utf8_encode _) as [bytes|e] eqn:Hbytes.
  - right. eauto.
  - left. rewrite (utf8_encode_Raise _ _ Hbytes). split; [|done].
    intros [bytes Hok]%utf8_encode_Ok. congruence.
Qed.

(** Writing to a file that was opened. *)
Lemma write_bytes_open fs path fs' bytes :
  open_for_writing fs path = Ok fs' ->
  exists stored,
    (write_bytes fs' path bytes).1
    = match write_error fs (locate fs path) bytes with
      | None => Ok tt
      | Some (e, _) => Raise e
      end
    /\ stored = match write_error fs (locate fs path) bytes with
                | None => bytes
                | Some (_, kept) => take kept bytes
                end
    /\ ((exists readable writable,
           (write_bytes fs' path bytes).2
           = set_node fs path (RegularFile readable writable stored)
           /\ (node_at fs path = None
               /\ readable = (created_mode fs).1
               /\ writable = (created_mode fs).2
               \/ exists content,
                    writable = true
                    /\ node_at fs path
                       = Some (RegularFile readable writable content)))
        \/ ((write_bytes fs' path bytes).2 = fs
            /\ node_at fs path = Some (Sink true))).
Proof.
  intros [(readable & writable & -> & Hnode)|[-> Hsink]]%open_for_writing_inv;
    unfold write_bytes; cbn [write_error locate set_node];
    destruct (write_error fs (locate fs path) bytes) as [[e kept]|];
    eexists; (split; [reflexivity|]); (split; [reflexivity|]).
  - left. exists readable, writable. by rewrite set_content_set_node.
  - left. exists readable, writable. by rewrite set_content_set_node.
  - right. by rewrite (set_content_sink _ _ _ _ Hsink).
  - right. by rewrite (set_content_sink _ _ _ _ Hsink).
Qed.

(** C10. A builder made without an output path cannot save: [save]
    raises, and the file system is as it was. *)
Theorem save_without_path self s fs :
  html_file_path self = None ->
  save self s fs = (Raise TypeError, fs).
Proof. intros Hpath. unfold save. by rewrite Hpath. Qed.


(** X13. Whatever its outcome, [save] changes at most the file its
    path leads to, and of this file at most the content: the file may
    be new; its permissions are kept; a directory or a sink stays what
    it is. Every other file, under whatever path, is as it was. *)
Theorem save_frame self s fs :
  match html_file_path self with
  | None => (save self s fs).2 = fs
  | Some path => changes_only (locate fs path) fs (save self s fs).2
  end.
Proof.
  destruct (html_file_path self) as [path|] eqn:Hpath;
    [|by rewrite save_without_path].
  destruct (save_cases self path s fs Hpath)
    as [(e & _ & ->)|(fs' & Hopen & [[_ ->]|(bytes & _ & ->)])].
  - apply changes_only_refl.
  - apply open_for_writing_inv in Hopen
      as [(readable & writable & -> & Hnode)|[-> _]];
      [|apply changes_only_refl].
    apply changes_only_set_node.
    destruct Hnode as [?|(content & _ & ?)]; eauto.
  - destruct (write_bytes_open fs path fs' bytes Hopen)
      as (stored & _ & _ & [(readable & writable & -> & Hnode)|[-> _]]);
      [|apply changes_only_refl].
    apply changes_only_set_node.
    destruct Hnode as [?|(content & _ & ?)]; eauto.
Qed.

(** X14. [save] returns exactly when the builder has a path, the file
    at the path can be opened for writing, the string, after the
    translation of its line feeds, has no code point that UTF-8
    cannot encode, and the device takes the bytes. *)
Theorem save_returns_iff self s fs :
  (save self s fs).1 = Ok tt
  <-> exists path bytes,
        html_file_path self = Some path /\ writable fs path
        /\ utf8_encode (translate_on_write linesep s) = Ok bytes
        /\ accepts fs path bytes.
Proof.
  split.
  - destruct (html_file_path self) as [path|] eqn:Hpath;
      [|by rewrite save_without_path].
    destruct (save_cases self path s fs Hpath)
      as [(e & _ & ->)|(fs' & Hopen & [[_ ->]|(bytes & Hbytes & ->)])];
      [done..|].
    destruct (write_bytes_open fs path fs' bytes Hopen)
      as (stored & -> & _ & _).
    intros Hok. exists path, bytes.
    split; [done|]. split; [by eexists|]. split; [done|].
    unfold accepts. by destruct (write_error _ _ _) as [[? ?]|].
  - intros (path & bytes & Hpath & [fs' Hopen] & Hbytes & Haccepts).
    destruct (save_cases self path s fs Hpath)
      as [(e & He & _)|(fs1 & Hopen' & [[Hno _]|(bytes' & Hbytes' & ->)])].
    + congruence.
    + destruct Hno. apply utf8_encode_Ok. eauto.
    + assert (bytes' = bytes) as -> by congruence.
      destruct (write_bytes_open fs path fs1 bytes Hopen')
        as (stored & -> & _ & _).
      unfold accepts in Haccepts. by rewrite Haccepts.
Qed.

(** X15. [save] is not atomic. When the file can be opened but the
    string cannot be encoded, the call raises [UnicodeEncodeError]
    after the file was emptied: what the file held is lost, and
    nothing of the string is written. *)
Theorem save_encoding_error_empties self path s fs :
  html_file_path self = Some path ->
  writable fs path ->
  ~ encodable (translate_on_write linesep s) ->
  (save self s fs).1 = Raise UnicodeEncodeError
  /\ file_content (save self s fs).2 path = Some [].
Proof.
  intros Hpath [fs' Hopen] Henc.
  destruct (save_cases self path s fs Hpath)
    as [(e & He & _)|(fs1 & Hopen' & [[_ ->]|(bytes & Hbytes & _)])].
  - congruence.
  - split; [done|]. simpl. unfold file_content.
    apply open_for_writing_inv in Hopen'
      as [(readable & writable & -> & _)|[-> ->]]; [|done].
    by rewrite node_at_set_node_eq.
  - destruct Henc. apply utf8_encode_Ok. eauto.
Qed.

(** Reading the saved file back as text, as the record loader reads
    its file, gives the string again when it has no carriage return
    and the saved file may be read. *)
Lemma save_then_read_text self path s fs fs' p :
  html_file_path self = Some path ->
  save self s fs = (Ok tt, fs') ->
  linesep = lit "\n" \/ 10%N ∉ s ->
  13%N ∉ s ->
  (node_at fs path = None /\ (created_mode fs).1 = true
   \/ exists writable content,
        node_at fs path = Some (RegularFile true writable content)) ->
  delivers fs path ->
  locate fs p = locate fs path ->
  isfile fs' p = true /\ read_text fs' p = Ok s.
Proof.
  intros Hpath Hsave Hnl Hcr Hreadable Hdelivers Hp.
  destruct (save_cases self path s fs Hpath)
    as [(e & _ & Hraise)|(fs1 & Hopen & [[_ Hraise]|(bytes & Hbytes & Hwrite)])];
    [congruence..|].
  rewrite (translate_on_write_id linesep s Hnl) in Hbytes.
  destruct (write_bytes_open fs path fs1 bytes Hopen)
    as (stored & Hresult & -> & Hfs).
  rewrite Hwrite in Hsave. rewrite Hsave in Hresult, Hfs. simpl in Hresult, Hfs.
  destruct (write_error fs (locate fs path) bytes) as [[e kept]|];
    [done|].
  destruct Hfs as [(readable & writable & -> & Hnode)|[_ Hsink]].
  2:{ destruct Hreadable as [[? _]|(? & ? & ?)]; congruence. }
  assert (readable = true) as ->.
  { destruct Hnode as [(Hnone & -> & _)|(content & _ & Hsome)];
      destruct Hreadable as [[Hnone' Hmode]|(w' & c' & Hsome')]; congruence. }
  unfold isfile, read_text, read_bytes. rewrite node_at_set_node.
  destruct (decide _); [|done]. split; [done|].
  unfold delivers in Hdelivers. cbn [read_error locate set_node].
  rewrite Hp, Hdelivers. cbn [mbind result_bind].
  rewrite (utf8_decode_encode s bytes Hbytes). cbn [fmap result_fmap].
  by rewrite universal_newlines_id.
Qed.

End Files.


(** On a platform whose line separator is carriage return plus line
    feed, the bytes written for a line feed are not its encoding. *)
Example save_translates_newlines :
  utf8_encode (translate_on_write [13; 10]%N (lit "a\nb"))
  = Ok [Byte.x61; Byte.x0d; Byte.x0a; Byte.x62]
  /\ utf8_encode (lit "a\nb") = Ok [Byte.x61; Byte.x0a; Byte.x62].
Proof. split; reflexivity. Qed.

Lemma sample_filesystem_open fs :
  nodes fs = nodes sample_filesystem ->
  locate fs (lit "out.html") = lit "out.html" ->
  open_for_writing fs (lit "out.html")
  = Ok (set_node fs (lit "out.html") (RegularFile true true [])).
Proof.
  intros Hnodes Hlocate. unfold open_for_writing, node_at.
  rewrite Hnodes, Hlocate. unfold sample_filesystem. simpl.
  by rewrite lookup_insert_eq.
Qed.

(** The conditions of C7 are needed. On a device that is full after
    one byte, [save] raises after [open] emptied the file, and one
    byte is left of the string. *)
Example save_on_full_device :
  let saved := save (lit "\n") (sample_visualizer []) (lit "new")
                 full_filesystem in
  saved.1 = Raise OSError
  /\ file_content saved.2 (lit "out.html") = Some [Byte.x6e].
Proof.
  unfold save, sample_visualizer. cbn [html_file_path].
  rewrite sample_filesystem_open by done.
  rewrite translate_on_write_posix.
  assert (utf8_encode (lit "new") = Ok [Byte.x6e; Byte.x65; Byte.x77]) as ->
    by reflexivity.
  unfold write_bytes. cbn [write_error set_node full_filesystem take].
  rewrite set_content_set_node. split; [done|]. cbn [snd].
  unfold file_content. by rewrite node_at_set_node_eq.
Qed.

(** A sink takes the string, and holds nothing afterwards. *)
Example save_to_sink :
  let self := {| username := lit "u"; json_path := PList [];
                 html_file_path := Some (lit "null") |} in
  let saved := save (lit "\n") self (lit "new") sink_filesystem in
  saved.1 = Ok tt /\ file_content saved.2 (lit "null") = Some [].
Proof.
  assert (node_at sink_filesystem (lit "null") = Some (Sink true)) as Hnode
    by apply node_at_set_node_eq.
  unfold save. cbn [html_file_path]. unfold open_for_writing.
  rewrite Hnode, translate_on_write_posix.
  assert (utf8_encode (lit "new") = Ok [Byte.x6e; Byte.x65; Byte.x77]) as ->
    by reflexivity.
  unfold write_bytes. cbn [write_error sink_filesystem set_node empty_filesystem].
  rewrite (set_content_sink _ _ _ _ Hnode). split; [done|]. cbn [snd].
  unfold file_content. by rewrite Hnode.
Qed.

(** A second path to the file shows what was saved under the first. *)
Example save_through_alias :
  let saved := save (lit "\n") (sample_visualizer []) (lit "new")
                 alias_filesystem in
  saved.1 = Ok tt
  /\ file_content saved.2 (lit "./out.html")
     = Some [Byte.x6e; Byte.x65; Byte.x77].
Proof.
  unfold save, sample_visualizer. cbn [html_file_path].
  rewrite sample_filesystem_open by done.
  rewrite translate_on_write_posix.
  assert (utf8_encode (lit "new") = Ok [Byte.x6e; Byte.x65; Byte.x77]) as ->
    by reflexivity.
  unfold write_bytes. cbn [write_error set_node alias_filesystem].
  rewrite set_content_set_node. split; [done|]. cbn [snd].
  unfold file_content. rewrite node_at_set_node.
  by destruct (decide _).
Qed.

(** Under a umask that takes the write permission from the files it
    creates, a first [save] returns and a second one cannot open the
    file the first one made. *)
Example save_twice_under_umask :
  let self := sample_visualizer [] in
  let first := save (lit "\n") self (lit "new") umask_filesystem in
  first.1 = Ok tt
  /\ (save (lit "\n") self (lit "new") first.2).1 = Raise PermissionError.
Proof.
  assert (utf8_encode (lit "new") = Ok [Byte.x6e; Byte.x65; Byte.x77])
    as Hbytes by reflexivity.
  assert (save (lit "\n") (sample_visualizer []) (lit "new") umask_filesystem
          = (Ok tt, set_node umask_filesystem (lit "out.html")
                      (RegularFile false false
                         [Byte.x6e; Byte.x65; Byte.x77]))) as Hfirst.
  { unfold save, sample_visualizer. cbn [html_file_path].
    unfold open_for_writing, node_at.
    cbn [nodes locate may_create created_mode umask_filesystem].
    rewrite lookup_empty. cbn [mbind result_bind fst snd].
    rewrite translate_on_write_posix, Hbytes.
    unfold write_bytes. cbn [write_error set_node umask_filesystem].
    by rewrite set_content_set_node. }
  cbn zeta. rewrite Hfirst. split; [done|]. cbn [fst snd].
  unfold save, sample_visualizer. cbn [html_file_path].
  unfold open_for_writing. by rewrite node_at_set_node_eq.
Qed.

(** * The record loader *)

Section Loader.
Variable json_loads : pystr -> result pyval.

Abbreviation _json_loader := (_json_loader json_loads).


(** The constructor fails when the loader does. *)
Lemma init_propagates fs u json_path path e :
  _json_loader fs json_path = Raise e ->
  __init__ json_loads fs u json_path path = Raise e.
Proof. unfold __init__. by intros ->. Qed.

(** X17. What [save] writes, the record loader reads back: after a
    call of [save] that returned, the loader given a path that leads
    to the saved file returns what [json.loads] makes of the saved
    string, when the string has no carriage return, the platform does
    not translate its line feeds, and the file may be read: it was
    there and readable, or it is new and the umask leaves the files
    created readable; and reading delivers its bytes. *)
Theorem save_then_load linesep self path s fs fs' p :
  html_file_path self = Some path ->
  save linesep self s fs = (Ok tt, fs') ->
  linesep = lit "\n" \/ 10%N ∉ s ->
  13%N ∉ s ->
  (node_at fs path = None /\ (created_mode fs).1 = true
   \/ exists writable content,
        node_at fs path = Some (RegularFile true writable content)) ->
  delivers fs path ->
  locate fs p = locate fs path ->
  _json_loader fs' (JsonStr p) = json_loads s.
Proof.
  intros Hpath Hsave Hnl Hcr Hreadable Hdelivers Hp.
  destruct (save_then_read_text linesep self path s fs fs' p
              Hpath Hsave Hnl Hcr Hreadable Hdelivers Hp) as [Hfile Hread].
  unfold _json_loader. by rewrite Hfile, Hread.
Qed.

(** X18. The exceptions of the record loader. For a list it raises
    [TypeError]. For a string it raises what [json.loads] raises on
    the text it parses; besides that it raises only for an existing
    regular file: [PermissionError] when the file may not be read,
    what [read] raises when the device fails, and
    [UnicodeDecodeError] when the bytes of the file are not UTF-8. A
    string that leads to no file is never a reason to raise. *)
Theorem json_loader_exceptions fs input e :
  _json_loader fs input = Raise e ->
  match input with
  | JsonList _ => e = TypeError
  | JsonStr path =>
      (isfile fs path = false /\ json_loads path = Raise e)
      \/ (isfile fs path = true
          /\ ((exists writable content text,
                 node_at fs path = Some (RegularFile true writable content)
                 /\ delivers fs path
                 /\ utf8_decode content = Ok text
                 /\ json_loads (universal_newlines text) = Raise e)
              \/ (exists writable content,
                    node_at fs path
                    = Some (RegularFile false writable content)
                    /\ e = PermissionError)
              \/ (exists writable content,
                    node_at fs path
                    = Some (RegularFile true writable content)
                    /\ read_error fs (locate fs path) = Some e)
              \/ (exists writable content,
                    node_at fs path
                    = Some (RegularFile true writable content)
                    /\ delivers fs path
                    /\ utf8_decode content = Raise UnicodeDecodeError
                    /\ e = UnicodeDecodeError)))
  end.
Proof.
  destruct input as [path|l]; [|by intros [= <-]].
  unfold _json_loader.
  destruct (isfile fs path) eqn:Hfile; [|by left].
  intros Hraise. right. split; [done|]. revert Hraise.
  unfold read_text, read_bytes. unfold isfile in Hfile.
  destruct (node_at fs path) as [[|readable writable content|]|];
    [done| |done..].
  destruct readable; cbn [mbind result_bind].
  - destruct (read_error fs (locate fs path)) as [e'|] eqn:Hread;
      cbn [mbind result_bind].
    { intros [= <-]. right. right. left. eauto. }
    destruct (utf8_decode content) as [text|e'] eqn:Hdecode;
      cbn [fmap result_fmap mbind result_bind].
    + intros He. left. exists writable, content, text. eauto.
    + intros [= <-]. right. right. right. exists writable, content.
      by rewrite <- (utf8_decode_Raise _ _ Hdecode).
  - intros [= <-]. right. left. eauto.
Qed.

End Loader.


(** * The properties of files on the sample data *)

Lemma sample_filesystem_writable :
  writable sample_filesystem (lit "out.html").
Proof. eexists. by apply sample_filesystem_open. Qed.

Lemma save_without_path_witness :
  save (lit "\n")
    {| username := lit "u"; json_path := PList []; html_file_path := None |}
    (lit "<html>") sample_filesystem
  = (Raise TypeError, sample_filesystem).
Proof. by apply save_without_path. Defined.



Lemma save_encoding_error_empties_witness :
  (save (lit "\n") (sample_visualizer []) [55357%N] sample_filesystem).1
  = Raise UnicodeEncodeError
  /\ file_content
       (save (lit "\n") (sample_visualizer []) [55357%N] sample_filesystem).2
       (lit "out.html")
     = Some [].
Proof.
  apply (save_encoding_error_empties (lit "\n") (sample_visualizer [])
           (lit "out.html")).
  - reflexivity.
  - apply sample_filesystem_writable.
  - rewrite translate_on_write_posix. intros Henc.
    apply Forall_cons in Henc as [[_ Hc] _]. apply Hc. lia.
Defined.

Lemma save_then_load_witness :
  _json_loader sample_json_loads
    (set_node alias_filesystem (lit "out.html")
       (RegularFile true true [Byte.x5b; Byte.x5d]))
    (JsonStr (lit "./out.html"))
  = sample_json_loads (lit "[]").
Proof.
  apply (save_then_load sample_json_loads (lit "\n") (sample_visualizer [])
           (lit "out.html") (lit "[]") alias_filesystem).
  - reflexivity.
  - unfold save, sample_visualizer. cbn [html_file_path].
    rewrite sample_filesystem_open by done.
    rewrite translate_on_write_posix.
    assert (utf8_encode (lit "[]") = Ok [Byte.x5b; Byte.x5d]) as ->
      by reflexivity.
    unfold write_bytes. cbn [write_error set_node alias_filesystem].
    by rewrite set_content_set_node.
  - by left.
  - apply (bool_decide_unpack _). vm_compute. exact I.
  - right. exists true, [Byte.x6f; Byte.x6c; Byte.x64].
    unfold node_at, alias_filesystem, sample_filesystem. simpl.
    by rewrite lookup_insert_eq.
  - reflexivity.
  - reflexivity.
Defined.

Lemma json_loader_exceptions_witness :
  (isfile records_filesystem (lit "{") = false
   /\ sample_json_loads (lit "{") = Raise JSONDecodeError)
  \/ (isfile records_filesystem (lit "{") = true
      /\ ((exists writable content text,
             node_at records_filesystem (lit "{")
             = Some (RegularFile true writable content)
             /\ delivers records_filesystem (lit "{")
             /\ utf8_decode content = Ok text
             /\ sample_json_loads (universal_newlines text)
                = Raise JSONDecodeError)
          \/ (exists writable content,
                node_at records_filesystem (lit "{")
                = Some (RegularFile false writable content)
                /\ JSONDecodeError = PermissionError)
          \/ (exists writable content,
                node_at records_filesystem (lit "{")
                = Some (RegularFile true writable content)
                /\ read_error records_filesystem
                     (locate records_filesystem (lit "{"))
                   = Some JSONDecodeError)
          \/ (exists writable content,
                node_at records_filesystem (lit "{")
                = Some (RegularFile true writable content)
                /\ delivers records_filesystem (lit "{")
                /\ utf8_decode content = Raise UnicodeDecodeError
                /\ JSONDecodeError = UnicodeDecodeError))).
Proof.
  apply (json_loader_exceptions sample_json_loads records_filesystem
           (JsonStr (lit "{"))).
  unfold _json_loader, isfile, records_filesystem.
  rewrite node_at_set_node.
  destruct (decide _) as [Heq|_]; [by vm_compute in Heq|].
  unfold node_at. simpl. by rewrite lookup_empty.
Defined.
(** * The properties above on the sample data *)

Lemma sample_html_generated :
  generate sample_repr sample_timestamp_parser
    (sample_visualizer sample_records) = Ok (render_html sample_document).
Proof. unfold generate. by rewrite sample_document_generated. Qed.

Lemma generate_returns_iff_witness :
  (exists html,
     generate sample_repr sample_timestamp_parser
       (sample_visualizer sample_records) = Ok html)
  <-> Forall (renderable sample_timestamp_parser) sample_records.
Proof.
  apply (generate_returns_iff sample_repr sample_timestamp_parser
           (sample_visualizer sample_records) sample_records).
  reflexivity.
Defined.

Lemma generate_raises_iff_witness :
  generate sample_repr sample_timestamp_parser
    (sample_visualizer
       [PDict sample_text_record; PDict sample_incomplete_record])
  = Raise (KeyError (PStr (lit "archived_length")))
  <-> exists (i : nat) tweet,
        [PDict sample_text_record; PDict sample_incomplete_record] !! i
        = Some tweet
        /\ (forall (j : nat) t,
              (j < i)%nat ->
              [PDict sample_text_record; PDict sample_incomplete_record] !! j
              = Some t ->
              renderable sample_timestamp_parser t)
        /\ out (render_tweet sample_repr sample_timestamp_parser
                  (Z.of_nat i) tweet)
           = Raise (KeyError (PStr (lit "archived_length"))).
Proof.
  apply (generate_raises_iff sample_repr sample_timestamp_parser
           (sample_visualizer
              [PDict sample_text_record; PDict sample_incomplete_record])).
  reflexivity.
Defined.

Lemma generate_exceptions_witness :
  (exists tweet,
     tweet ∈ [PDict sample_text_record; PDict sample_incomplete_record]
     /\ card_exception sample_timestamp_parser tweet
          (KeyError (PStr (lit "archived_length"))))
  /\ (KeyError (PStr (lit "archived_length")) = IndexError ->
      exists v, sample_timestamp_parser v = Raise IndexError).
Proof.
  apply (generate_exceptions sample_repr sample_timestamp_parser
           (sample_visualizer
              [PDict sample_text_record; PDict sample_incomplete_record])).
  - reflexivity.
  - vm_compute. reflexivity.
Defined.

Lemma generate_one_card_per_record_witness :
  tweet_cards sample_document = 2%nat
  /\ closed_tweet_cards sample_document = 2%nat.
Proof.
  apply (generate_one_card_per_record sample_repr sample_timestamp_parser
           (sample_visualizer sample_records) sample_records).
  - reflexivity.
  - vm_compute. reflexivity.
Defined.

Lemma page_sizes_witness :
  exists tweets,
    page_tweets (sample_visualizer thirty_records) 2 = Ok tweets
    /\ 1 <= Z.of_nat (length tweets) <= 24
    /\ (2 < total_pages 30 -> Z.of_nat (length tweets) = 24)
    /\ (2 = total_pages 30 ->
        Z.of_nat (length tweets) = 30 - 24 * (total_pages 30 - 1)).
Proof.
  apply (page_sizes (sample_visualizer thirty_records) thirty_records 2).
  - reflexivity.
  - by vm_compute.
Defined.




Lemma generate_username_verbatim_witness :
  exists before between after,
    render_html sample_document
    = before ++ title_text (lit "u") ++ between
      ++ heading_text (lit "u") ++ after.
Proof.
  apply (generate_username_verbatim sample_repr sample_timestamp_parser
           (sample_visualizer sample_records)).
  apply sample_html_generated.
Defined.

Lemma generate_text_verbatim_witness :
  occurs_in (available_text_paragraph (lit "hello"))
    (render_html sample_document).
Proof.
  apply (generate_text_verbatim sample_repr sample_timestamp_parser
           (sample_visualizer sample_records) sample_records
           (render_html sample_document) 1 sample_text_record (lit "hello")).
  - reflexivity.
  - reflexivity.
  - reflexivity.
  - discriminate.
  - apply sample_html_generated.
Defined.




Lemma render_tweet_content_blocks_witness :
  (exists card,
     out (render_tweet sample_repr sample_timestamp_parser 0
            (PDict sample_archived_record)) = Ok card
     /\ (accordion_count card = 4%nat
         /\ accordion_labels card = iframe_keys
         /\ plain_text_content card = [])
     /\ concat (render <$> card)
        = lit "<div class=$tweet$>\n"
          ++ (accordion_section_text 0
                (lit "Archived Tweet") (lit "Archived_Tweet")
                (lit "https://web.archive.org/web/2020/https://twitter.com/u/status/1")
              ++ accordion_section_text 0
                   (lit "Parsed Archived Tweet") (lit "Parsed_Archived_Tweet")
                   (lit "https://web.archive.org/web/2020/https://twitter.com/u/status/1")
              ++ accordion_section_text 0
                   (lit "Original Tweet") (lit "Original_Tweet")
                   (lit "https://twitter.com/u/status/1")
              ++ accordion_section_text 0
                   (lit "Parsed Tweet") (lit "Parsed_Tweet")
                   (lit "https://twitter.com/u/status/1"))
          ++ concat (render <$> common_block sample_repr sample_archived_record
                                  (PStr (lit "20200101000000"))))
  /\ (exists card,
        out (render_tweet sample_repr sample_timestamp_parser 1
               (PDict sample_text_record)) = Ok card
        /\ (accordion_count card = 0%nat
            /\ accordion_labels card = []
            /\ plain_text_content card
               = [ AvailableText (lit "hello"); AvailableIsRT (lit "False");
                   AvailableInfo (lit "u") ])
        /\ concat (render <$> card)
           = lit "<div class=$tweet$>\n"
             ++ plain_text_block_text (lit "hello") (lit "False") (lit "u")
             ++ concat (render <$> common_block sample_repr sample_text_record
                                     (PStr (lit "20200101000000")))).
Proof.
  split.
  - exact (render_tweet_content_blocks sample_repr sample_timestamp_parser 0
             sample_archived_record (PStr (lit "20200101000000"))
             sample_archived_record_expected eq_refl).
  - exact (render_tweet_content_blocks sample_repr sample_timestamp_parser 1
             sample_text_record (PStr (lit "20200101000000"))
             sample_text_record_expected eq_refl).
Defined.

Lemma generate_page_containers_and_links_witness :
  exists n doc blocks,
    py_len (json_path (sample_visualizer sample_records)) = Ok n
    /\ generate_elems sample_repr sample_timestamp_parser
         (sample_visualizer sample_records) = Ok doc
    /\ page_containers doc = seqZ 1 (total_pages n)
    /\ pagination_links doc = seqZ 1 (total_pages n)
    /\ length blocks = Z.to_nat (total_pages n)
    /\ Forall2 (fun page cards =>
                  Forall2 (fun index card =>
                             card_at sample_repr sample_timestamp_parser
                               (sample_visualizer sample_records) index
                             = Ok card)
                    (positions (page_lo page) (page_hi page n)) cards)
         (seqZ 1 (total_pages n)) blocks
    /\ render_html sample_document
       = render_html (prologue (lit "u"))
         ++ concat (zip_with page_container_text
                      (seqZ 1 (total_pages n))
                      ((fun cards => render_html (concat cards)) <$> blocks))
         ++ pagination_text (total_pages n)
         ++ render_html [ Attribution; PaginationScript (total_pages n);
                          Markup (lit "</body>\n"); Markup (lit "</html>") ].
Proof.
  apply (generate_page_containers_and_links sample_repr
           sample_timestamp_parser (sample_visualizer sample_records)).
  apply sample_html_generated.
Defined.

(** On the sample document, which has every kind of piece and no
    [id] in its data, a piece writes one [id] attribute when it
    carries an [id], and none otherwise. *)
Example sample_document_id_attributes :
  forallb (fun e =>
             Nat.eqb (count_occurrences (lit " id=$") (render e))
               (if elem_id_source e then 1 else 0))
    sample_document
  = true.
Proof. vm_compute. reflexivity. Qed.


Lemma generate_depends_on_username_and_records_witness :
  generate sample_repr sample_timestamp_parser
    (sample_visualizer sample_records)
  = generate sample_repr strict_timestamp_parser
      {| username := lit "u"; json_path := PList sample_records;
         html_file_path := None |}.
Proof.
  apply generate_depends_on_username_and_records; [reflexivity..|].
  intros records d v [= <-] Hd Hv.
  assert (exists s, v = PStr s) as [s ->]; [|reflexivity].
  apply elem_of_cons in Hd as [[= ->]|Hd];
    [|apply elem_of_cons in Hd as [[= ->]|Hd]; [|by inversion Hd]];
    vm_compute in Hv; injection Hv as <-; by eexists.
Defined.


Lemma generate_first_page_witness :
  occurs_in (script_loop_text (total_pages 2)) (render_html sample_document)
  /\ (0 < 2 ->
      occurs_in (id_element_text (FromPage 1)) (render_html sample_document)
      /\ occurs_in (id_element_text (FromPageLink 1))
           (render_html sample_document))
  /\ (2 = 0 ->
      exists rest,
        render_html sample_document
        = render_html (prologue (lit "u"))
          ++ lit "<br>\n" ++ lit "<div class=$pagination$>\n"
          ++ lit "</div>\n" ++ rest).
Proof.
  apply (generate_first_page sample_repr sample_timestamp_parser
           (sample_visualizer sample_records)).
  - reflexivity.
  - apply sample_html_generated.
Defined.
